(** * DICOM to PNG conversion: the intensity normaliser and its orchestrator

    A shallow embedding of [src/images/dicom_to_png.py]:
    [normalize_pixel_array], [convert_dicom_to_png] and
    [batch_convert_dicom_to_png].

    Numeric model.  Decoded pixel samples are integers of the dtype of the
    array; arithmetic done in that dtype wraps around ([wrap]).  Window
    centre and width are Python floats (what
    pydicom yields for a DS attribute).  The normaliser works on
    [numpy.float64] values; a finite double is modelled by the rational it
    denotes, and every arithmetic operation rounds its exact result to the
    nearest double (ties to even, 53 significant bits, gradual underflow
    down to 2^-1074) through [fl].  Overflow to infinity and NaN are outside
    the model: where a statement depends on their absence it bounds the
    window parameters ([window_in_range]).  A division by zero does not
    occur on a decoded array ([display_range_width_pos]). *)

From Stdlib Require Import ZArith QArith Qround Qpower List Lia Lqa.
From Stdlib Require Import String.
Import ListNotations.

Local Open Scope Z_scope.
Local Open Scope Q_scope.

(** ** binary64 rounding *)

Module Float64.

(** 53 significant bits; the smallest positive double is 2^-1074. *)
Definition mant_bits : Z := 53.
Definition emin : Z := -1074.

(** [floor (log2 x)] for a positive rational [x]. *)
Definition ilog2 (x : Q) : Z :=
  let k := (Z.log2 (Qnum x) - Z.log2 (Zpos (Qden x)))%Z in
  if Qle_bool (2 ^ k)%Q x then k else (k - 1)%Z.

(** Round to the nearest integer, ties to the even one. *)
Definition rne (x : Q) : Z :=
  let f := Qfloor x in
  match (x - inject_Z f ?= 1 # 2)%Q with
  | Lt => f
  | Gt => (f + 1)%Z
  | Eq => if Z.even f then f else (f + 1)%Z
  end.

(** Exponent of the unit in the last place of the binade of [x]. *)
Definition ulp_exp (x : Q) : Z := Z.max (ilog2 x - (mant_bits - 1)) emin.

Definition fl_pos (x : Q) : Q :=
  let e := ulp_exp x in
  inject_Z (rne (x / 2 ^ e)) * 2 ^ e.

(** The double nearest to the rational [x]. *)
Definition fl (x : Q) : Q :=
  match x ?= 0 with
  | Eq => 0
  | Gt => fl_pos x
  | Lt => - fl_pos (- x)
  end.

(** The four operations of [numpy.float64]. *)
Definition fadd (x y : Q) : Q := fl (x + y).
Definition fsub (x y : Q) : Q := fl (x - y).
Definition fmul (x y : Q) : Q := fl (x * y).
Definition fdiv (x y : Q) : Q := fl (x / y).

(** An [int] sample converted to [float64]. *)
Definition of_int (z : Z) : Q := fl (inject_Z z).

(** Doubles are integer multiples of 2^emin. *)
Definition on_grid (x : Q) : Prop := exists k : Z, x == inject_Z k * 2 ^ emin.

End Float64.

Import Float64.

(** ** Python exceptions and results *)

Inductive exn : Type :=
| ValueError        (* numpy: reduction of an empty array *)
| IndexError        (* [seq[0]] on an empty sequence *)
| AttributeError    (* dataset without pixel data *)
| InvalidDicomError (* pydicom.dcmread on a corrupted file *)
| OSError.          (* PIL / file system failure *)

Inductive result (A : Type) : Type :=
| Ok (a : A)
| Raise (e : exn).
Arguments Ok {A} a.
Arguments Raise {A} e.

Definition bind {A B : Type} (r : result A) (k : A -> result B) : result B :=
  match r with
  | Ok a => k a
  | Raise e => Raise e
  end.

Notation "x <- c1 ;; c2" := (bind c1 (fun x => c2))
  (at level 61, c1 at next level, right associativity).
Notation "' pat <- c1 ;; c2" := (bind c1 (fun x => match x with pat => c2 end))
  (at level 61, pat pattern, c1 at next level, right associativity).

(** ** numpy arrays *)

(** An array is its shape and its samples in row-major order. *)
Record ndarray (A : Type) : Type := mk_ndarray {
  shape : list nat;
  data : list A
}.
Arguments mk_ndarray {A} shape data.
Arguments shape {A} n.
Arguments data {A} n.

(** Element-wise operation: the shape is kept. *)
Definition np_map {A B : Type} (f : A -> B) (a : ndarray A) : ndarray B :=
  mk_ndarray (shape a) (map f (data a)).

(** The dtype travels with the array: integer samples (what a DICOM decoder
    yields) or [float64] samples (what [np.clip] with float bounds yields). *)
Inductive pixels : Type :=
| IntPixels (a : ndarray Z)
| FloatPixels (a : ndarray Q).

Definition pixels_shape (p : pixels) : list nat :=
  match p with
  | IntPixels a => shape a
  | FloatPixels a => shape a
  end.

(** The samples of an array as numbers. *)
Definition samples (p : pixels) : list Q :=
  match p with
  | IntPixels a => map inject_Z (data a)
  | FloatPixels a => data a
  end.

(** [a.astype(np.float64)]: integers are rounded to the nearest double,
    a [float64] array is copied. *)
Definition astype_float64 (p : pixels) : ndarray Q :=
  match p with
  | IntPixels a => np_map of_int a
  | FloatPixels a => a
  end.

Definition Qmin (x y : Q) : Q := if Qle_bool x y then x else y.
Definition Qmax (x y : Q) : Q := if Qle_bool x y then y else x.

(** [a.min()] and [a.max()]; numpy raises ValueError on an empty array. *)
Definition np_min (a : ndarray Q) : result Q :=
  match data a with
  | [] => Raise ValueError
  | x :: xs => Ok (fold_left Qmin xs x)
  end.

Definition np_max (a : ndarray Q) : result Q :=
  match data a with
  | [] => Raise ValueError
  | x :: xs => Ok (fold_left Qmax xs x)
  end.

(** [np.clip(a, a_min, a_max)] is [np.minimum(a_max, np.maximum(a, a_min))]. *)
Definition clip (a_min a_max x : Q) : Q := Qmin (Qmax x a_min) a_max.
Definition np_clip (a : ndarray Q) (a_min a_max : Q) : ndarray Q :=
  np_map (clip a_min a_max) a.

Definition np_zeros_like (a : ndarray Q) : ndarray Q := np_map (fun _ => 0) a.

(** Truncation toward zero. *)
Definition Qtrunc (x : Q) : Z := if Qle_bool 0 x then Qfloor x else Qceiling x.

(** [a.astype(np.uint8)] on a float array: the fractional part is dropped
    and the integer is stored in 8 bits. *)
Definition to_uint8 (x : Q) : Z := (Qtrunc x mod 256)%Z.
Definition astype_uint8 (a : ndarray Q) : ndarray Z := np_map to_uint8 a.

(** ** The intensity normaliser *)

(** [x // 2] on a Python float is the floor of the exact quotient, itself a
    double. *)
Definition floordiv2 (x : Q) : Q := inject_Z (Qfloor (x / 2)).

(** Lines 32-39: the display range and the array after clipping. *)
Definition windowing (pixel_array : ndarray Q) (window_center window_width : option Q)
  : result (ndarray Q * Q * Q) :=
  match window_center, window_width with
  | Some c, Some w =>
      let img_min := fsub c (floordiv2 w) in
      let img_max := fadd c (floordiv2 w) in
      Ok (np_clip pixel_array img_min img_max, img_min, img_max)
  | _, _ =>
      img_min <- np_min pixel_array ;;
      img_max <- np_max pixel_array ;;
      Ok (pixel_array, img_min, img_max)
  end.

(** Line 43, for one sample. *)
Definition rescale_sample (img_min img_max x : Q) : Q :=
  fmul (fdiv (fsub x img_min) (fsub img_max img_min)) 255.

(** Lines 42-45. *)
Definition rescale (pixel_array : ndarray Q) (img_min img_max : Q) : ndarray Q :=
  if Qlt_le_dec img_min img_max
  then np_map (rescale_sample img_min img_max) pixel_array
  else np_zeros_like pixel_array.

Definition normalize_pixel_array (pixel_array : pixels)
    (window_center window_width : option Q) : result (ndarray Z) :=
  let pixel_array := astype_float64 pixel_array in
  '(pixel_array, img_min, img_max) <- windowing pixel_array window_center window_width ;;
  Ok (astype_uint8 (rescale pixel_array img_min img_max)).

(** [np.clip] applied to a raw array with float bounds gives a [float64]
    array. *)
Definition np_clip_pixels (p : pixels) (a_min a_max : Q) : pixels :=
  FloatPixels (np_clip (astype_float64 p) a_min a_max).

(** The window parameters for which no operation of lines 33-43 leaves the
    range of the finite doubles. *)
Definition window_in_range (c w : Q) : Prop :=
  - 2 ^ 1022 <= c <= 2 ^ 1022 /\ - 2 ^ 1022 <= w <= 2 ^ 1022.

(** ** Integer dtypes *)

(** The integer dtypes of a decoded pixel array. *)
Inductive dtype : Type := uint8 | int8 | uint16 | int16 | uint32 | int32.

Definition dtype_bits (dt : dtype) : Z :=
  match dt with
  | uint8 | int8 => 8
  | uint16 | int16 => 16
  | uint32 | int32 => 32
  end%Z.

Definition dtype_signed (dt : dtype) : bool :=
  match dt with
  | int8 | int16 | int32 => true
  | uint8 | uint16 | uint32 => false
  end.

Definition dtype_min (dt : dtype) : Z :=
  if dtype_signed dt then (- 2 ^ (dtype_bits dt - 1))%Z else 0%Z.

Definition dtype_max (dt : dtype) : Z :=
  if dtype_signed dt then (2 ^ (dtype_bits dt - 1) - 1)%Z
  else (2 ^ dtype_bits dt - 1)%Z.

(** Integer arithmetic in a dtype wraps around modulo 2^bits. *)
Definition wrap (dt : dtype) (z : Z) : Z :=
  ((z - dtype_min dt) mod 2 ^ dtype_bits dt + dtype_min dt)%Z.

Definition in_dtype (dt : dtype) (z : Z) : Prop :=
  (dtype_min dt <= z <= dtype_max dt)%Z.

(** ** The conversion orchestrator *)

Local Open Scope string_scope.

(** A DS attribute is one number or a multi-valued sequence. *)
Inductive ds_value : Type :=
| Scalar (v : Q)
| MultiValue (vs : list Q).

(** The attributes of a decoded dataset the converter looks at; [None] is an
    absent attribute ([hasattr] is false). *)
Record dataset : Type := mk_dataset {
  pixel_data : option (ndarray Z);
  PhotometricInterpretation : option string;
  WindowCenter : option ds_value;
  WindowWidth : option ds_value;
  pixel_dtype : dtype
}.

(** A PIL image: the requested mode and the array it was built from. *)
Definition image : Type := (option string * ndarray Z)%type.

(** What the converter prints and writes. *)
Inductive event : Type :=
| Saved (im : image) (output_path : string)
| Converted (src dst : string)
| ErrorConverting (dicom_path : string) (e : exn)
| NoFilesFound (search_pattern : string)
| Found (n : nat)
| Summary (converted total : nat).

(** The libraries the converter calls. *)
Record platform : Type := mk_platform {
  dcmread : string -> result dataset;
  Image_fromarray : ndarray Z -> option string -> result image;
  Image_save : image -> string -> result unit;
  os_path_basename : string -> string;
  os_path_dirname : string -> string;
  os_path_splitext : string -> string * string;
  os_path_join : string -> string -> string;
  glob_glob : string -> list string;
  os_makedirs : string -> result unit
}.

(** [dicom.pixel_array]. *)
Definition pixel_array (dicom : dataset) : result (ndarray Z) :=
  match pixel_data dicom with
  | Some a => Ok a
  | None => Raise AttributeError
  end.

Definition Zmax_list (x : Z) (xs : list Z) : Z := fold_left Z.max xs x.

(** [np.max(a) - a] on the integer array: the subtraction is done in the
    dtype of the array, before any promotion to float. *)
Definition invert (dt : dtype) (a : ndarray Z) : result (ndarray Z) :=
  match data a with
  | [] => Raise ValueError
  | x :: xs =>
      let m := Zmax_list x xs in Ok (np_map (fun p => wrap dt (m - p)) a)
  end.

(** The samples lie in the dtype and so do the differences max - p: always
    for an unsigned dtype, for a signed one when the spread of the samples
    does not exceed its largest value. *)
Definition inversion_fits (dt : dtype) (a : ndarray Z) : Prop :=
  Forall (in_dtype dt) (data a) /\
  (dtype_signed dt = false \/
   forall x y, In x (data a) -> In y (data a) -> (x - y <= dtype_max dt)%Z).

(** Lines 70-73. *)
Definition photometric (dicom : dataset) (a : ndarray Z) : result (ndarray Z) :=
  match PhotometricInterpretation dicom with
  | Some pi =>
      if String.eqb pi "MONOCHROME1" then invert (pixel_dtype dicom) a else Ok a
  | None => Ok a
  end.

(** Lines 83-86: a sequence contributes its element 0. *)
Definition first_value (v : ds_value) : result Q :=
  match v with
  | Scalar x => Ok x
  | MultiValue [] => Raise IndexError
  | MultiValue (x :: _) => Ok x
  end.

(** Lines 76-86. *)
Definition window_parameters (dicom : dataset) (apply_windowing : bool)
  : result (option Q * option Q) :=
  if apply_windowing then
    match WindowCenter dicom, WindowWidth dicom with
    | Some c, Some w =>
        window_center <- first_value c ;;
        window_width <- first_value w ;;
        Ok (Some window_center, Some window_width)
    | _, _ => Ok (None, None)
    end
  else Ok (None, None).

(** Lines 67-86: the arguments of the call to the normaliser. *)
Definition normalizer_call (dicom : dataset) (apply_windowing : bool)
  : result (ndarray Z * option Q * option Q) :=
  a <- pixel_array dicom ;;
  a <- photometric dicom a ;;
  '(window_center, window_width) <- window_parameters dicom apply_windowing ;;
  Ok (a, window_center, window_width).

(** Lines 100-103. *)
Definition default_output_path (os : platform) (dicom_path : string) : string :=
  let base_name := fst (os_path_splitext os (os_path_basename os dicom_path)) in
  let output_dir :=
    if String.eqb (os_path_dirname os dicom_path) "" then "."
    else os_path_dirname os dicom_path in
  os_path_join os output_dir (base_name ++ ".png").

(** Lines 63-109, the body of the [try]. *)
Definition convert_body (os : platform) (dicom_path : string)
    (output_path : option string) (apply_windowing : bool)
  : result (string * list event) :=
  dicom <- dcmread os dicom_path ;;
  '(a, window_center, window_width) <- normalizer_call dicom apply_windowing ;;
  normalized_array <- normalize_pixel_array (IntPixels a) window_center window_width ;;
  im <- (if Nat.eqb (List.length (shape normalized_array)) 3
         then Image_fromarray os normalized_array None
         else Image_fromarray os normalized_array (Some "L")) ;;
  let output_path :=
    match output_path with
    | None => default_output_path os dicom_path
    | Some p => p
    end in
  _ <- Image_save os im output_path ;;
  Ok (output_path,
      [Saved im output_path;
       Converted (os_path_basename os dicom_path) (os_path_basename os output_path)]).

(** [try ... except Exception]: the path on success, [None] and a line on
    stderr naming [dicom_path] otherwise. *)
Definition convert_dicom_to_png (os : platform) (dicom_path : string)
    (output_path : option string) (apply_windowing : bool)
  : option string * list event :=
  match convert_body os dicom_path output_path apply_windowing with
  | Ok (p, out) => (Some p, out)
  | Raise e => (None, [ErrorConverting dicom_path e])
  end.

(** Python truthiness of [None] and of a string. *)
Definition truthy (s : option string) : bool :=
  match s with
  | None => false
  | Some p => negb (String.eqb p "")
  end.

(** Lines 144-153, the loop of the batch conversion. *)
Fixpoint convert_each (os : platform) (output_dir : option string)
    (dicom_files : list string) (converted_files : list string)
  : list string * list event :=
  match dicom_files with
  | [] => (converted_files, [])
  | dicom_path :: rest =>
      let output_path :=
        if truthy output_dir then
          match output_dir with
          | Some d =>
              let base_name := fst (os_path_splitext os (os_path_basename os dicom_path)) in
              Some (os_path_join os d (base_name ++ ".png"))
          | None => None
          end
        else None in
      let '(res, out) := convert_dicom_to_png os dicom_path output_path true in
      let converted_files :=
        if truthy res then
          match res with
          | Some p => (converted_files ++ [p])%list
          | None => converted_files
          end
        else converted_files in
      let '(final, out') := convert_each os output_dir rest converted_files in
      (final, (out ++ out')%list)
  end.

(** Lines 145-149: the output path the loop asks for. *)
Definition batch_output_path (os : platform) (output_dir : option string)
    (dicom_path : string) : option string :=
  if truthy output_dir then
    match output_dir with
    | Some d =>
        let base_name := fst (os_path_splitext os (os_path_basename os dicom_path)) in
        Some (os_path_join os d (base_name ++ ".png"))
    | None => None
    end
  else None.

Definition batch_convert_dicom_to_png (os : platform) (input_path : string)
    (output_dir : option string) (pattern : string)
  : result (list string) * list event :=
  let search_pattern := os_path_join os input_path pattern in
  let dicom_files := glob_glob os search_pattern in
  match dicom_files with
  | [] => (Ok [], [NoFilesFound search_pattern])
  | _ =>
      match (if truthy output_dir
             then match output_dir with
                  | Some d => os_makedirs os d
                  | None => Ok tt
                  end
             else Ok tt) with
      | Raise e => (Raise e, [Found (List.length dicom_files)])
      | Ok _ =>
          let '(converted_files, out) := convert_each os output_dir dicom_files [] in
          (Ok converted_files,
           (Found (List.length dicom_files) :: out
              ++ [Summary (List.length converted_files) (List.length dicom_files)])%list)
      end
  end.

(** A small platform for the examples: three files, the second of which does
    not decode. *)
Definition example_dataset : dataset :=
  mk_dataset (Some (mk_ndarray [2; 2]%nat [0; 128; 128; 255]%Z))
    (Some "MONOCHROME2") None None uint8.

Definition example_platform : platform :=
  mk_platform
    (fun path => if String.eqb path "scans/b.dcm"
                 then Raise InvalidDicomError else Ok example_dataset)
    (fun a mode => Ok (mode, a))
    (fun _ _ => Ok tt)
    (fun path => substring 6 (String.length path - 6) path)
    (fun path => substring 0 5 path)
    (fun name => (substring 0 (String.length name - 4) name,
                  substring (String.length name - 4) 4 name))
    (fun d f => d ++ "/" ++ f)
    (fun _ => ["scans/a.dcm"; "scans/b.dcm"; "scans/c.dcm"])
    (fun _ => Ok tt).

(** The same platform, but the second file decodes to a dataset without
    pixel data. *)
Definition example_platform_no_pixels : platform :=
  mk_platform
    (fun path => if String.eqb path "scans/b.dcm"
                 then Ok (mk_dataset None (Some "MONOCHROME2") None None uint8)
                 else Ok example_dataset)
    (Image_fromarray example_platform) (Image_save example_platform)
    (os_path_basename example_platform) (os_path_dirname example_platform)
    (os_path_splitext example_platform) (os_path_join example_platform)
    (glob_glob example_platform) (os_makedirs example_platform).

Local Close Scope string_scope.

(** ** The command line *)

(** The namespace returned by [parser.parse_args()]. *)
Record arguments : Type := mk_arguments {
  input : string;
  output : option string;
  output_dir : option string;
  pattern : string;
  no_windowing : bool
}.

(** How [main] ends: it returns, it calls [sys.exit], or an exception
    escapes. *)
Inductive exit_status : Type :=
| Returned
| SystemExit (code : Z)
| Uncaught (e : exn).

(** What [main] prints: the lines of the conversions, or the complaint about
    the input path. *)
Inductive main_event : Type :=
| Conversion (ev : event)
| InvalidInput (input : string).

(** Lines 209-226; [os.path.isfile] and [os.path.isdir] are given. *)
Definition main (os : platform) (os_path_isfile os_path_isdir : string -> bool)
    (args : arguments) : exit_status * list main_event :=
  if os_path_isfile (input args) then
    let '(_, out) :=
      convert_dicom_to_png os (input args) (output args) (negb (no_windowing args)) in
    (Returned, map Conversion out)
  else if os_path_isdir (input args) then
    match batch_convert_dicom_to_png os (input args) (output_dir args) (pattern args) with
    | (Ok _, out) => (Returned, map Conversion out)
    | (Raise e, out) => (Uncaught e, map Conversion out)
    end
  else (SystemExit 1, [InvalidInput (input args)]).

(** The example platform with a reader that decodes every file to the
    given dataset. *)
Definition example_reader (dicom : dataset) : platform :=
  mk_platform (fun _ => Ok dicom)
    (Image_fromarray example_platform) (Image_save example_platform)
    (os_path_basename example_platform) (os_path_dirname example_platform)
    (os_path_splitext example_platform) (os_path_join example_platform)
    (glob_glob example_platform) (os_makedirs example_platform).

(** * Proofs *)

(** ** Rounding to binary64 is monotone *)

Module Float64Facts.

Lemma pow2_pos (k : Z) : 0 < 2 ^ k.
Proof. apply Qpower_0_lt. reflexivity. Qed.

Lemma pow2_succ (k : Z) : 2 ^ (k + 1) == 2 * 2 ^ k.
Proof. rewrite Qpower_plus by discriminate. simpl (2 ^ 1). ring. Qed.

Lemma pow2_le (a b : Z) : (a <= b)%Z -> 2 ^ a <= 2 ^ b.
Proof. intros H. apply Qpower_le_compat_l; [exact H | discriminate]. Qed.

Lemma pow2_lt (a b : Z) : (a < b)%Z -> 2 ^ a < 2 ^ b.
Proof. intros H. apply Qpower_lt_compat_l; [exact H | reflexivity]. Qed.

Lemma pow2_inject (a : Z) : (0 <= a)%Z -> inject_Z (2 ^ a) == 2 ^ a.
Proof. intros H. now rewrite Zpower_Qpower. Qed.

Lemma ilog2_spec (x : Q) :
  0 < x -> 2 ^ ilog2 x <= x /\ x < 2 ^ (ilog2 x + 1).
Proof.
  intros Hx. unfold ilog2.
  destruct x as [n d]. cbn [Qnum Qden].
  assert (Hn : (0 < n)%Z) by (unfold Qlt in Hx; cbn in Hx; lia).
  set (a := Z.log2 n). set (b := Z.log2 (Z.pos d)).
  assert (Ha : (0 <= a)%Z) by apply Z.log2_nonneg.
  assert (Hb : (0 <= b)%Z) by apply Z.log2_nonneg.
  destruct (Z.log2_spec n Hn) as [Ha1 Ha2]. fold a in Ha1, Ha2.
  destruct (Z.log2_spec (Z.pos d) ltac:(lia)) as [Hb1 Hb2]. fold b in Hb1, Hb2.
  assert (HA1 : 2 ^ a <= inject_Z n)
    by (rewrite <- pow2_inject by lia; rewrite <- Zle_Qle; exact Ha1).
  assert (HA2 : inject_Z n < 2 * 2 ^ a).
  { rewrite <- pow2_succ, <- pow2_inject by lia. rewrite <- Zlt_Qlt.
    replace (a + 1)%Z with (Z.succ a) by lia. exact Ha2. }
  assert (HB1 : 2 ^ b <= inject_Z (Z.pos d))
    by (rewrite <- pow2_inject by lia; rewrite <- Zle_Qle; exact Hb1).
  assert (HB2 : inject_Z (Z.pos d) < 2 * 2 ^ b).
  { rewrite <- pow2_succ, <- pow2_inject by lia. rewrite <- Zlt_Qlt.
    replace (b + 1)%Z with (Z.succ b) by lia. exact Hb2. }
  assert (Hk : 2 ^ (a - b) * 2 ^ b == 2 ^ a).
  { rewrite <- Qpower_plus by discriminate. now replace (a - b + b)%Z with a by lia. }
  pose proof (pow2_pos a) as Pa. pose proof (pow2_pos b) as Pb.
  pose proof (pow2_pos (a - b)) as Pk.
  assert (Hx' : (n # d) * inject_Z (Z.pos d) == inject_Z n).
  { rewrite (Qmake_Qdiv n d). field. discriminate. }
  set (X := n # d) in *. set (N := inject_Z n) in *. set (D := inject_Z (Z.pos d)) in *.
  set (K := 2 ^ (a - b)) in *. set (A := 2 ^ a) in *. set (B := 2 ^ b) in *.
  destruct (Qle_bool K X) eqn:E.
  - apply Qle_bool_iff in E. split; [exact E|].
    rewrite pow2_succ. fold K. nra.
  - assert (E' : X < K).
    { apply Qnot_le_lt. intros H. apply Qle_bool_iff in H. congruence. }
    split.
    + assert (H2 : 2 * 2 ^ (a - b - 1) == K).
      { rewrite <- pow2_succ. unfold K. now replace (a - b - 1 + 1)%Z with (a - b)%Z by lia. }
      pose proof (pow2_pos (a - b - 1)). nra.
    + replace (a - b - 1 + 1)%Z with (a - b)%Z by lia. exact E'.
Qed.

Lemma ilog2_mono (x y : Q) : 0 < x -> x <= y -> (ilog2 x <= ilog2 y)%Z.
Proof.
  intros Hx Hxy.
  destruct (ilog2_spec x Hx) as [Lx _].
  destruct (ilog2_spec y (Qlt_le_trans _ _ _ Hx Hxy)) as [_ Uy].
  destruct (Z_le_gt_dec (ilog2 x) (ilog2 y)) as [H|H]; [exact H|exfalso].
  pose proof (pow2_le (ilog2 y + 1) (ilog2 x) ltac:(lia)). lra.
Qed.

Lemma rne_bounds (x : Q) : (Qfloor x <= rne x <= Qfloor x + 1)%Z.
Proof.
  unfold rne. destruct (x - inject_Z (Qfloor x) ?= 1 # 2); [destruct (Z.even _)| |]; lia.
Qed.

Lemma rne_mono (x y : Q) : x <= y -> (rne x <= rne y)%Z.
Proof.
  intros Hxy. pose proof (Qfloor_resp_le x y Hxy) as Hf.
  pose proof (rne_bounds x) as Bx. pose proof (rne_bounds y) as By.
  destruct (Z.eq_dec (Qfloor x) (Qfloor y)) as [E|E]; [|lia].
  unfold rne in *. rewrite <- E in *. clear E Hf.
  destruct (Qcompare_spec (x - inject_Z (Qfloor x)) (1 # 2)) as [Hx|Hx|Hx];
  destruct (Qcompare_spec (y - inject_Z (Qfloor x)) (1 # 2)) as [Hy|Hy|Hy];
  try destruct (Z.even (Qfloor x)); try lia; exfalso; lra.
Qed.

Lemma rne_Z (z : Z) : rne (inject_Z z) = z.
Proof.
  unfold rne. rewrite Qfloor_Z.
  destruct (Qcompare_spec (inject_Z z - inject_Z z) (1 # 2)) as [H|H|H];
    [exfalso; lra | reflexivity | exfalso; lra].
Qed.

Lemma rne_ge (z : Z) (x : Q) : inject_Z z <= x -> (z <= rne x)%Z.
Proof. intros H. rewrite <- (rne_Z z). now apply rne_mono. Qed.

Lemma rne_le (z : Z) (x : Q) : x <= inject_Z z -> (rne x <= z)%Z.
Proof. intros H. rewrite <- (rne_Z z). now apply rne_mono. Qed.

Lemma ulp_exp_mono (x y : Q) : 0 < x -> x <= y -> (ulp_exp x <= ulp_exp y)%Z.
Proof. intros Hx Hxy. unfold ulp_exp. pose proof (ilog2_mono x y Hx Hxy). lia. Qed.

Lemma fl_pos_nonneg (x : Q) : 0 < x -> 0 <= fl_pos x.
Proof.
  intros Hx. unfold fl_pos. pose proof (pow2_pos (ulp_exp x)) as P.
  apply Qmult_le_0_compat; [|lra].
  change 0 with (inject_Z 0). rewrite <- Zle_Qle. apply rne_ge.
  apply Qle_shift_div_l; [exact P|]. change (inject_Z 0) with 0. lra.
Qed.

Lemma fl_pos_mono (x y : Q) : 0 < x -> x <= y -> fl_pos x <= fl_pos y.
Proof.
  intros Hx Hxy. unfold fl_pos.
  pose proof (ulp_exp_mono x y Hx Hxy) as He.
  assert (Hy : 0 < y) by lra.
  set (ex := ulp_exp x) in *. set (ey := ulp_exp y) in *.
  pose proof (pow2_pos ex) as Px. pose proof (pow2_pos ey) as Py.
  destruct (Z.eq_dec ex ey) as [E|E].
  - rewrite <- E. apply Qmult_le_compat_r; [|lra].
    rewrite <- Zle_Qle. apply rne_mono.
    apply Qmult_le_compat_r; [exact Hxy|]. apply Qlt_le_weak, Qinv_lt_0_compat, Px.
  - assert (Hlt : (ex < ey)%Z) by lia. clear E He.
    destruct (ilog2_spec x Hx) as [_ Ux]. destruct (ilog2_spec y Hy) as [Ly _].
    assert (Hey : ey = (ilog2 y - 52)%Z) by (unfold ey, ulp_exp, mant_bits, emin in *; lia).
    assert (Hex : (ilog2 x + 1 <= ex + 53)%Z) by (unfold ex, ulp_exp, mant_bits, emin; lia).
    (* the significand of [x] is at most 2^53 *)
    assert (Mx : (rne (x / 2 ^ ex) <= 2 ^ 53)%Z).
    { apply rne_le. rewrite pow2_inject by lia.
      apply Qle_shift_div_r; [exact Px|].
      rewrite <- Qpower_plus by discriminate.
      pose proof (pow2_le _ _ Hex). replace (53 + ex)%Z with (ex + 53)%Z by lia. lra. }
    (* the significand of [y] is at least 2^52 *)
    assert (My : (2 ^ 52 <= rne (y / 2 ^ ey))%Z).
    { apply rne_ge. rewrite pow2_inject by lia.
      apply Qle_shift_div_l; [exact Py|].
      rewrite <- Qpower_plus by discriminate.
      replace (52 + ey)%Z with (ilog2 y) by lia. exact Ly. }
    apply Qle_trans with (inject_Z (2 ^ 53) * 2 ^ ex).
    { apply Qmult_le_compat_r; [|lra]. now rewrite <- Zle_Qle. }
    apply Qle_trans with (inject_Z (2 ^ 52) * 2 ^ ey).
    2:{ apply Qmult_le_compat_r; [|lra]. now rewrite <- Zle_Qle. }
    rewrite !pow2_inject by lia. rewrite <- !Qpower_plus by discriminate.
    apply pow2_le. lia.
Qed.

Lemma fl_zero (x : Q) : x == 0 -> fl x = 0.
Proof. intros H. unfold fl. apply Qeq_alt in H. now rewrite H. Qed.

Lemma fl_nonneg (x : Q) : 0 <= x -> 0 <= fl x.
Proof.
  intros H. unfold fl. destruct (Qcompare_spec x 0) as [E|E|E]; [lra|lra|].
  now apply fl_pos_nonneg.
Qed.

Lemma fl_nonpos (x : Q) : x <= 0 -> fl x <= 0.
Proof.
  intros H. unfold fl. destruct (Qcompare_spec x 0) as [E|E|E]; [lra| |lra].
  pose proof (fl_pos_nonneg (- x) ltac:(lra)). lra.
Qed.

Lemma fl_mono (x y : Q) : x <= y -> fl x <= fl y.
Proof.
  intros Hxy.
  destruct (Qlt_le_dec 0 x) as [Hx|Hx].
  - unfold fl. destruct (Qcompare_spec x 0) as [E|E|E]; [lra|lra|].
    destruct (Qcompare_spec y 0) as [E'|E'|E']; [lra|lra|].
    now apply fl_pos_mono.
  - destruct (Qlt_le_dec y 0) as [Hy|Hy].
    + unfold fl. destruct (Qcompare_spec x 0) as [E|E|E]; [lra| |lra].
      destruct (Qcompare_spec y 0) as [E'|E'|E']; [lra| |lra].
      pose proof (fl_pos_mono (- y) (- x) ltac:(lra) ltac:(lra)). lra.
    + pose proof (fl_nonpos x Hx). pose proof (fl_nonneg y Hy). lra.
Qed.

#[export] Instance fl_compat : Proper (Qeq ==> Qeq) fl.
Proof.
  intros x y H. apply Qle_antisym; apply fl_mono; rewrite H; apply Qle_refl.
Qed.

(** The rounding at work: 1/3 and 2^53 + 1 are not doubles, 1/49 * 49 is
    not 1. *)
Example fl_third : fl (1 # 3) == 6004799503160661 # 18014398509481984.
Proof. vm_compute. reflexivity. Qed.

Example fl_ties_to_even : of_int (2 ^ 53 + 1) == inject_Z (2 ^ 53).
Proof. vm_compute. reflexivity. Qed.

Example fmul_fdiv_49 : fmul (fdiv 1 49) 49 == 1 - (1 # 2 ^ 53).
Proof. vm_compute. reflexivity. Qed.

Lemma fl_1 : fl 1 == 1.
Proof. vm_compute. reflexivity. Qed.

Lemma fl_255 : fl 255 == 255.
Proof. vm_compute. reflexivity. Qed.

Lemma fl_pos_on_grid (x : Q) : on_grid (fl_pos x).
Proof.
  unfold fl_pos. set (e := ulp_exp x).
  assert (He : (emin <= e)%Z) by (unfold e, ulp_exp; lia).
  exists (rne (x / 2 ^ e) * 2 ^ (e - emin))%Z.
  rewrite inject_Z_mult, pow2_inject by lia.
  rewrite <- Qmult_assoc, <- Qpower_plus by discriminate.
  now replace (e - emin + emin)%Z with e by lia.
Qed.

Lemma fl_on_grid (x : Q) : on_grid (fl x).
Proof.
  unfold fl. destruct (x ?= 0).
  - exists 0%Z. ring.
  - destruct (fl_pos_on_grid (- x)) as [k Hk]. exists (- k)%Z.
    rewrite Hk, inject_Z_opp. ring.
  - apply fl_pos_on_grid.
Qed.

Lemma fl_min_subnormal : fl (2 ^ emin) == 2 ^ emin.
Proof. vm_compute. reflexivity. Qed.

(** Gradual underflow: the difference of two distinct doubles does not
    round to zero. *)
Lemma fsub_pos (lo hi : Q) : on_grid lo -> on_grid hi -> lo < hi -> 0 < fsub hi lo.
Proof.
  intros [kl Hl] [kh Hh] H. unfold fsub.
  pose proof (pow2_pos emin) as P.
  assert (Hk : (kl < kh)%Z).
  { destruct (Z_lt_le_dec kl kh) as [L|L]; [exact L|exfalso].
    rewrite Zle_Qle in L. nra. }
  assert (Hd : 2 ^ emin <= hi - lo).
  { assert (L : (kl + 1 <= kh)%Z) by lia.
    rewrite Zle_Qle, inject_Z_plus in L.
    change (inject_Z 1) with 1 in L. nra. }
  apply fl_mono in Hd. rewrite fl_min_subnormal in Hd. lra.
Qed.
End Float64Facts.

Import Float64Facts.

(** ** Facts about the numpy operations *)

Lemma Qmin_spec (x y : Q) : (x <= y /\ Qmin x y = x) \/ (y < x /\ Qmin x y = y).
Proof.
  unfold Qmin. destruct (Qle_bool x y) eqn:E.
  - left. split; [now apply Qle_bool_iff | reflexivity].
  - right. split; [|reflexivity]. apply Qnot_le_lt. intros H.
    apply Qle_bool_iff in H. congruence.
Qed.

Lemma Qmax_spec (x y : Q) : (x <= y /\ Qmax x y = y) \/ (y < x /\ Qmax x y = x).
Proof.
  unfold Qmax. destruct (Qle_bool x y) eqn:E.
  - left. split; [now apply Qle_bool_iff | reflexivity].
  - right. split; [|reflexivity]. apply Qnot_le_lt. intros H.
    apply Qle_bool_iff in H. congruence.
Qed.

Ltac minmax :=
  repeat match goal with
  | |- context [Qmax ?a ?b] =>
      let H := fresh in let E := fresh in
      destruct (Qmax_spec a b) as [[H E]|[H E]]; rewrite E in *; clear E
  | |- context [Qmin ?a ?b] =>
      let H := fresh in let E := fresh in
      destruct (Qmin_spec a b) as [[H E]|[H E]]; rewrite E in *; clear E
  end.

Lemma clip_bounds (lo hi x : Q) : lo <= hi -> lo <= clip lo hi x <= hi.
Proof. intros H. unfold clip. minmax; lra. Qed.

Lemma clip_mono (lo hi x y : Q) : x <= y -> clip lo hi x <= clip lo hi y.
Proof. intros H. unfold clip. minmax; lra. Qed.

(** An inverted range: the upper bound is returned, whatever the sample. *)
Lemma clip_inverted (lo hi x : Q) : hi < lo -> clip lo hi x = hi.
Proof. intros H. unfold clip. minmax; try reflexivity; exfalso; lra. Qed.

Lemma clip_degenerate (lo hi x : Q) : hi <= lo -> clip lo hi x == hi.
Proof. intros H. unfold clip. minmax; lra. Qed.

Lemma clip_below (lo hi x : Q) : lo <= hi -> x <= lo -> clip lo hi x == lo.
Proof. intros H1 H2. unfold clip. minmax; lra. Qed.

Lemma clip_above (lo hi x : Q) : lo <= hi -> hi <= x -> clip lo hi x == hi.
Proof. intros H1 H2. unfold clip. minmax; lra. Qed.

Lemma fold_min_spec (xs : list Q) (x : Q) :
  In (fold_left Qmin xs x) (x :: xs) /\
  Forall (fun y => fold_left Qmin xs x <= y) (x :: xs).
Proof.
  revert x. induction xs as [|y ys IH]; intros x; cbn [fold_left].
  - split; [now left | constructor; [apply Qle_refl | constructor]].
  - destruct (IH (Qmin x y)) as [Hin Hall].
    apply Forall_cons_iff in Hall. destruct Hall as [Hm Hall].
    destruct (Qmin_spec x y) as [[L E]|[L E]]; rewrite E in *.
    + split.
      * destruct Hin as [<-|Hin]; [now left | right; now right].
      * constructor; [exact Hm|]. constructor; [lra | exact Hall].
    + split.
      * destruct Hin as [<-|Hin]; [right; now left | right; now right].
      * constructor; [lra|]. constructor; [exact Hm | exact Hall].
Qed.

Lemma fold_max_spec (xs : list Q) (x : Q) :
  In (fold_left Qmax xs x) (x :: xs) /\
  Forall (fun y => y <= fold_left Qmax xs x) (x :: xs).
Proof.
  revert x. induction xs as [|y ys IH]; intros x; cbn [fold_left].
  - split; [now left | constructor; [apply Qle_refl | constructor]].
  - destruct (IH (Qmax x y)) as [Hin Hall].
    apply Forall_cons_iff in Hall. destruct Hall as [Hm Hall].
    destruct (Qmax_spec x y) as [[L E]|[L E]]; rewrite E in *.
    + split.
      * destruct Hin as [<-|Hin]; [right; now left | right; now right].
      * constructor; [lra|]. constructor; [exact Hm | exact Hall].
    + split.
      * destruct Hin as [<-|Hin]; [now left | right; now right].
      * constructor; [exact Hm|]. constructor; [lra | exact Hall].
Qed.

Lemma np_min_spec (a : ndarray Q) (m : Q) :
  np_min a = Ok m -> In m (data a) /\ Forall (fun y => m <= y) (data a).
Proof.
  unfold np_min. destruct (data a) as [|x xs]; [discriminate|].
  intros [= <-]. apply fold_min_spec.
Qed.

Lemma np_max_spec (a : ndarray Q) (m : Q) :
  np_max a = Ok m -> In m (data a) /\ Forall (fun y => y <= m) (data a).
Proof.
  unfold np_max. destruct (data a) as [|x xs]; [discriminate|].
  intros [= <-]. apply fold_max_spec.
Qed.

(** ** One sample through the rescaling *)

Lemma fsub_mono_l (x y lo : Q) : x <= y -> fsub x lo <= fsub y lo.
Proof. intros H. apply fl_mono. lra. Qed.

Lemma fdiv_mono_l (x y d : Q) : 0 <= d -> x <= y -> fdiv x d <= fdiv y d.
Proof.
  intros Hd H. apply fl_mono. apply Qmult_le_compat_r; [exact H|].
  now apply Qinv_le_0_compat.
Qed.

Lemma fdiv_unit (a d : Q) : 0 <= a <= d -> 0 <= fdiv a d <= 1.
Proof.
  intros [Ha Had]. unfold fdiv. split.
  - apply fl_nonneg. apply Qmult_le_0_compat; [exact Ha|].
    apply Qinv_le_0_compat. lra.
  - rewrite <- fl_1. apply fl_mono.
    destruct (Qlt_le_dec 0 d) as [Hd|Hd].
    + apply Qle_shift_div_r; [exact Hd | lra].
    + assert (E : d == 0) by lra. rewrite E. unfold Qdiv.
      change (/ 0) with 0. lra.
Qed.

Lemma rescale_sample_mono (lo hi x y : Q) :
  lo <= hi -> x <= y -> rescale_sample lo hi x <= rescale_sample lo hi y.
Proof.
  intros Hr H. unfold rescale_sample, fmul. apply fl_mono.
  apply Qmult_le_compat_r; [|discriminate].
  apply fdiv_mono_l; [|now apply fsub_mono_l].
  apply fl_nonneg. lra.
Qed.

Lemma rescale_sample_range (lo hi x : Q) :
  lo <= x <= hi -> 0 <= rescale_sample lo hi x <= 255.
Proof.
  intros [H1 H2]. unfold rescale_sample, fmul.
  assert (Hq : 0 <= fdiv (fsub x lo) (fsub hi lo) <= 1).
  { apply fdiv_unit. split; [apply fl_nonneg; lra | apply fsub_mono_l; exact H2]. }
  split.
  - apply fl_nonneg. lra.
  - apply Qle_trans with (fl 255); [apply fl_mono; lra|].
    rewrite fl_255. apply Qle_refl.
Qed.

#[export] Instance rescale_sample_compat :
  Proper (Qeq ==> Qeq ==> Qeq ==> Qeq) rescale_sample.
Proof.
  intros lo lo' Hl hi hi' Hh x x' Hx.
  unfold rescale_sample, fmul, fdiv, fsub. now rewrite Hl, Hh, Hx.
Qed.

(** ** The cast to [uint8] *)

#[export] Instance to_uint8_compat : Proper (Qeq ==> eq) to_uint8.
Proof.
  intros x y H. unfold to_uint8, Qtrunc.
  rewrite (Qleb_comp 0 0 (Qeq_refl 0) x y H).
  now rewrite (Qfloor_comp x y H), (Qceiling_comp x y H).
Qed.

Lemma to_uint8_floor (v : Q) : 0 <= v <= 255 -> to_uint8 v = Qfloor v.
Proof.
  intros [H0 H1]. unfold to_uint8, Qtrunc.
  apply Qle_bool_iff in H0 as E. rewrite E.
  pose proof (Qfloor_resp_le _ _ H0) as L. pose proof (Qfloor_resp_le _ _ H1) as U.
  change (Qfloor 0) with 0%Z in L. change (Qfloor 255) with 255%Z in U.
  apply Z.mod_small. lia.
Qed.

Lemma to_uint8_range (v : Q) : (0 <= to_uint8 v <= 255)%Z.
Proof. unfold to_uint8. pose proof (Z.mod_pos_bound (Qtrunc v) 256). lia. Qed.

Lemma to_uint8_mono (u v : Q) :
  0 <= u -> v <= 255 -> u <= v -> (to_uint8 u <= to_uint8 v)%Z.
Proof.
  intros H0 H1 H. rewrite !to_uint8_floor by lra. now apply Qfloor_resp_le.
Qed.

Lemma to_uint8_zero : to_uint8 0 = 0%Z.
Proof. reflexivity. Qed.

(** ** The normaliser, array by array *)

Lemma astype_float64_data (p : pixels) :
  exists h : Q -> Q,
    (forall x y, x <= y -> h x <= h y) /\
    data (astype_float64 p) = map h (samples p) /\
    shape (astype_float64 p) = pixels_shape p.
Proof.
  destruct p as [a|a]; cbn.
  - exists fl. split; [exact fl_mono|]. split; [|reflexivity].
    unfold of_int. now rewrite map_map.
  - exists (fun x => x). split; [auto|]. split; [|reflexivity].
    now rewrite map_id.
Qed.

Lemma windowing_data (a : ndarray Q) (wc ww : option Q) (arr : ndarray Q) (lo hi : Q) :
  windowing a wc ww = Ok (arr, lo, hi) ->
  exists g : Q -> Q,
    (forall x y, x <= y -> g x <= g y) /\
    (lo <= hi -> Forall (fun x => lo <= g x <= hi) (data a)) /\
    data arr = map g (data a) /\ shape arr = shape a.
Proof.
  intros H.
  assert (Full : (img_min <- np_min a ;; img_max <- np_max a ;; Ok (a, img_min, img_max))
                 = Ok (arr, lo, hi) ->
          exists g : Q -> Q,
            (forall x y, x <= y -> g x <= g y) /\
            (lo <= hi -> Forall (fun x => lo <= g x <= hi) (data a)) /\
            data arr = map g (data a) /\ shape arr = shape a).
  { clear H. intros H. destruct (np_min a) as [mn|] eqn:Emin; [|discriminate].
    destruct (np_max a) as [mx|] eqn:Emax; [|discriminate].
    cbn in H. injection H as <- <- <-.
    destruct (np_min_spec _ _ Emin) as [_ Hmin].
    destruct (np_max_spec _ _ Emax) as [_ Hmax].
    exists (fun x => x). split; [auto|]. split; [|split; [now rewrite map_id | reflexivity]].
    intros _. rewrite Forall_forall in *. intros x Hx. split; auto. }
  unfold windowing in H. destruct wc as [c|]; [destruct ww as [w|]|]; auto.
  injection H as <- <- <-.
  exists (clip (fsub c (floordiv2 w)) (fadd c (floordiv2 w))).
  split; [intros x y; apply clip_mono|].
  split; [|split; reflexivity].
  intros Hr. apply Forall_forall. intros x _. now apply clip_bounds.
Qed.

Lemma rescale_shape (a : ndarray Q) (lo hi : Q) :
  shape (rescale a lo hi) = shape a /\
  List.length (data (rescale a lo hi)) = List.length (data a).
Proof.
  unfold rescale. destruct (Qlt_le_dec lo hi); cbn; now rewrite length_map.
Qed.

Lemma rescale_degenerate (a : ndarray Q) (lo hi : Q) :
  hi <= lo -> rescale a lo hi = np_zeros_like a.
Proof.
  intros H. unfold rescale. destruct (Qlt_le_dec lo hi) as [L|L]; [exfalso; lra | reflexivity].
Qed.

Lemma rescale_proper (a : ndarray Q) (lo hi : Q) :
  lo < hi -> rescale a lo hi = np_map (rescale_sample lo hi) a.
Proof.
  intros H. unfold rescale. destruct (Qlt_le_dec lo hi) as [L|L]; [reflexivity | exfalso; lra].
Qed.

(** With a proper display range the output is a sample-wise monotone map of
    the input samples. *)
Lemma normalize_elements (p : pixels) (wc ww : option Q) (arr : ndarray Q) (lo hi : Q) :
  windowing (astype_float64 p) wc ww = Ok (arr, lo, hi) -> lo < hi ->
  exists g : Q -> Q,
    (forall x y, x <= y -> g x <= g y) /\
    Forall (fun x => lo <= g x <= hi) (samples p) /\
    normalize_pixel_array p wc ww
    = Ok (mk_ndarray (pixels_shape p)
            (map (fun x => to_uint8 (rescale_sample lo hi (g x))) (samples p))).
Proof.
  intros Hw Hr.
  destruct (astype_float64_data p) as (h & Hh & Hd & Hs).
  destruct (windowing_data _ _ _ _ _ _ Hw) as (g & Hg & Hin & Hda & Hsa).
  exists (fun x => g (h x)). split; [auto|]. split.
  - specialize (Hin (Qlt_le_weak _ _ Hr)). rewrite Hd in Hin.
    now rewrite Forall_map in Hin.
  - unfold normalize_pixel_array. rewrite Hw. cbn [bind].
    rewrite rescale_proper by exact Hr. unfold astype_uint8, np_map. cbn [shape data].
    rewrite Hsa, Hs, Hda, Hd, !map_map. reflexivity.
Qed.

(** ** The normaliser: the claims *)

(** With [hi <= lo] the rescaling takes its second branch. *)
Lemma degenerate_range_zero
    (p : pixels) (wc ww : option Q) (arr : ndarray Q) (lo hi : Q) :
  windowing (astype_float64 p) wc ww = Ok (arr, lo, hi) ->
  hi <= lo ->
  normalize_pixel_array p wc ww
  = Ok (mk_ndarray (pixels_shape p) (repeat 0%Z (List.length (samples p)))).
Proof.
  intros Hw Hr.
  destruct (astype_float64_data p) as (h & _ & Hd & Hs).
  destruct (windowing_data _ _ _ _ _ _ Hw) as (g & _ & _ & Hda & Hsa).
  unfold normalize_pixel_array. rewrite Hw. cbn [bind].
  rewrite rescale_degenerate by exact Hr.
  unfold astype_uint8, np_zeros_like, np_map. cbn [shape data].
  rewrite Hsa, Hs, Hda, Hd, !map_map, map_const. reflexivity.
Qed.

(** C2. A degenerate display range ([hi <= lo]: a constant image without
    window, or a window whose bounds meet or cross) gives an all-zero array
    of the shape of the input. *)
Theorem normalize_degenerate_zero
    (p : pixels) (wc ww : option Q) (arr : ndarray Q) (lo hi : Q) :
  windowing (astype_float64 p) wc ww = Ok (arr, lo, hi) ->
  hi <= lo ->
  normalize_pixel_array p wc ww
  = Ok (mk_ndarray (pixels_shape p) (repeat 0%Z (List.length (samples p)))).
Proof. apply degenerate_range_zero. Qed.

Lemma normalize_degenerate_zero_witness :
  normalize_pixel_array (IntPixels (mk_ndarray [2; 2]%nat [7; 7; 7; 7]%Z)) None None
  = Ok (mk_ndarray [2; 2]%nat [0; 0; 0; 0]%Z).
Proof.
  apply (normalize_degenerate_zero
           (IntPixels (mk_ndarray [2; 2]%nat [7; 7; 7; 7]%Z)) None None
           (astype_float64 (IntPixels (mk_ndarray [2; 2]%nat [7; 7; 7; 7]%Z)))
           (of_int 7) (of_int 7)).
  - reflexivity.
  - apply Qle_refl.
Defined.

(** C3. With a proper display range ([hi > lo]) every output value is an
    integer between 0 and 255, and the output preserves the order of the
    input samples: a sample that is at most another is mapped to a value
    that is at most the other's. *)
Theorem normalize_range_monotone
    (p : pixels) (wc ww : option Q) (arr : ndarray Q) (lo hi : Q) :
  windowing (astype_float64 p) wc ww = Ok (arr, lo, hi) ->
  lo < hi ->
  exists out : ndarray Z,
    normalize_pixel_array p wc ww = Ok out /\
    List.length (data out) = List.length (samples p) /\
    Forall (fun v => (0 <= v <= 255)%Z) (data out) /\
    forall (i j : nat) (x y : Q) (u v : Z),
      nth_error (samples p) i = Some x -> nth_error (samples p) j = Some y ->
      nth_error (data out) i = Some u -> nth_error (data out) j = Some v ->
      x <= y -> (u <= v)%Z.
Proof.
  intros Hw Hr.
  destruct (normalize_elements p wc ww arr lo hi Hw Hr) as (g & Hg & Hin & Hn).
  eexists. split; [exact Hn|]. cbn [data].
  split; [apply length_map|]. split.
  - apply Forall_map, Forall_forall. intros x _. apply to_uint8_range.
  - intros i j x y u v Hx Hy Hu Hv Hxy.
    rewrite nth_error_map, Hx in Hu. rewrite nth_error_map, Hy in Hv.
    cbn in Hu, Hv. injection Hu as <-. injection Hv as <-.
    rewrite Forall_forall in Hin.
    pose proof (Hin x (nth_error_In _ _ Hx)) as Bx.
    pose proof (Hin y (nth_error_In _ _ Hy)) as By.
    pose proof (rescale_sample_range lo hi (g x) Bx).
    pose proof (rescale_sample_range lo hi (g y) By).
    apply to_uint8_mono; try tauto.
    apply rescale_sample_mono; [lra | now apply Hg].
Qed.

Lemma normalize_range_monotone_witness :
  exists out : ndarray Z,
    normalize_pixel_array (IntPixels (mk_ndarray [1; 3]%nat [5; -3; 40]%Z))
      (Some 10) (Some 30) = Ok out /\
    List.length (data out) = 3%nat /\
    Forall (fun v => (0 <= v <= 255)%Z) (data out) /\
    forall (i j : nat) (x y : Q) (u v : Z),
      nth_error [inject_Z 5; inject_Z (-3); inject_Z 40] i = Some x ->
      nth_error [inject_Z 5; inject_Z (-3); inject_Z 40] j = Some y ->
      nth_error (data out) i = Some u -> nth_error (data out) j = Some v ->
      x <= y -> (u <= v)%Z.
Proof.
  apply (normalize_range_monotone
           (IntPixels (mk_ndarray [1; 3]%nat [5; -3; 40]%Z)) (Some 10) (Some 30)
           (np_clip (astype_float64 (IntPixels (mk_ndarray [1; 3]%nat [5; -3; 40]%Z)))
              (fsub 10 (floordiv2 30)) (fadd 10 (floordiv2 30)))
           (fsub 10 (floordiv2 30)) (fadd 10 (floordiv2 30))).
  - reflexivity.
  - vm_compute. reflexivity.
Defined.

(** C7. Whatever the window parameters, an array returned by the normaliser
    has the shape (and the number of samples) of the input; and the
    normaliser does return an array whenever both window parameters are
    given or the input is not empty. *)
Theorem normalize_preserves_shape (p : pixels) (wc ww : option Q) :
  (forall out : ndarray Z,
     normalize_pixel_array p wc ww = Ok out ->
     shape out = pixels_shape p /\
     List.length (data out) = List.length (samples p)) /\
  ((exists c w, wc = Some c /\ ww = Some w) \/ samples p <> [] ->
   exists out : ndarray Z, normalize_pixel_array p wc ww = Ok out).
Proof.
  destruct (astype_float64_data p) as (h & _ & Hd & Hs). split.
  - intros out H. unfold normalize_pixel_array in H.
    destruct (windowing (astype_float64 p) wc ww) as [[[arr lo] hi]|e] eqn:Hw;
      [|discriminate].
    cbn [bind] in H. injection H as <-.
    destruct (windowing_data _ _ _ _ _ _ Hw) as (g & _ & _ & Hda & Hsa).
    destruct (rescale_shape arr lo hi) as [S L].
    unfold astype_uint8, np_map. cbn [shape data].
    rewrite S, Hsa, Hs, length_map, L, Hda, Hd, !length_map. now split.
  - intros H. unfold normalize_pixel_array.
    assert (Hw : exists r, windowing (astype_float64 p) wc ww = Ok r).
    { destruct H as [(c & w & -> & ->)|Hne].
      - eexists. reflexivity.
      - assert (Full : exists r,
                  (img_min <- np_min (astype_float64 p) ;;
                   img_max <- np_max (astype_float64 p) ;;
                   Ok (astype_float64 p, img_min, img_max)) = Ok r).
        { unfold np_min, np_max. rewrite Hd.
          destruct (samples p) as [|x xs]; [congruence|]. cbn. eexists. reflexivity. }
        unfold windowing. destruct wc as [c|]; [destruct ww as [w|]|]; auto.
        eexists. reflexivity. }
    destruct Hw as [[[arr lo] hi] ->]. cbn [bind]. eexists. reflexivity.
Qed.

Lemma normalize_preserves_shape_witness :
  (forall out : ndarray Z,
     normalize_pixel_array (IntPixels (mk_ndarray [2; 1; 3]%nat [9; 8; 7; 6; 5; 4]%Z))
       None (Some 4) = Ok out ->
     shape out = [2; 1; 3]%nat /\ List.length (data out) = 6%nat) /\
  exists out : ndarray Z,
    normalize_pixel_array (IntPixels (mk_ndarray [2; 1; 3]%nat [9; 8; 7; 6; 5; 4]%Z))
      None (Some 4) = Ok out.
Proof.
  destruct (normalize_preserves_shape
              (IntPixels (mk_ndarray [2; 1; 3]%nat [9; 8; 7; 6; 5; 4]%Z))
              None (Some 4)) as [S T].
  split; [exact S|]. apply T. right. discriminate.
Defined.

(** C8. The full-range 8-bit image [[0,128],[128,255]] without window is
    mapped to itself; and the cast to 8 bits drops the fractional part:
    the middle sample of [[0,1,2]] rescales to 127.5 and is stored as 127. *)
Theorem normalize_identity_example :
  normalize_pixel_array (IntPixels (mk_ndarray [2; 2]%nat [0; 128; 128; 255]%Z)) None None
  = Ok (mk_ndarray [2; 2]%nat [0; 128; 128; 255]%Z) /\
  rescale_sample (of_int 0) (of_int 2) (of_int 1) == 255 # 2 /\
  to_uint8 (255 # 2) = 127%Z /\
  normalize_pixel_array (IntPixels (mk_ndarray [1; 3]%nat [0; 1; 2]%Z)) None None
  = Ok (mk_ndarray [1; 3]%nat [0; 127; 255]%Z).
Proof.
  repeat split; vm_compute; reflexivity.
Qed.

Lemma floordiv2_nonpos (w : Q) : w < 2 -> floordiv2 w <= 0.
Proof.
  intros H. unfold floordiv2. change 0 with (inject_Z 0). rewrite <- Zle_Qle.
  assert (L : inject_Z (Qfloor (w / 2)) < inject_Z 1).
  { apply Qle_lt_trans with (w / 2); [apply Qfloor_le|].
    apply Qlt_shift_div_r; [reflexivity|]. change (inject_Z 1) with 1. lra. }
  rewrite <- Zlt_Qlt in L. lia.
Qed.

(** C10. A window width below 2 (0, 1, a fraction below 2, any negative
    width) makes [w // 2] at most 0, hence [hi <= lo]: the normaliser
    returns the all-zero array whatever the pixels and the centre. *)
Theorem narrow_window_blanks_image (p : pixels) (c w : Q) :
  w < 2 ->
  fadd c (floordiv2 w) <= fsub c (floordiv2 w) /\
  normalize_pixel_array p (Some c) (Some w)
  = Ok (mk_ndarray (pixels_shape p) (repeat 0%Z (List.length (samples p)))).
Proof.
  intros H. pose proof (floordiv2_nonpos w H) as F.
  assert (R : fadd c (floordiv2 w) <= fsub c (floordiv2 w))
    by (apply fl_mono; lra).
  split; [exact R|].
  eapply degenerate_range_zero; [reflexivity | exact R].
Qed.

Lemma narrow_window_blanks_image_witness :
  fadd 50 (floordiv2 1) <= fsub 50 (floordiv2 1) /\
  normalize_pixel_array (IntPixels (mk_ndarray [1; 4]%nat [0; 49; 51; 100]%Z))
    (Some 50) (Some 1)
  = Ok (mk_ndarray [1; 4]%nat [0; 0; 0; 0]%Z).
Proof.
  apply (narrow_window_blanks_image
           (IntPixels (mk_ndarray [1; 4]%nat [0; 49; 51; 100]%Z)) 50 1).
  reflexivity.
Defined.

(** C4, as stated, fails: with centre 50 and width -20 the range is
    lo = 60 > hi = 40 and the clipped samples are 40, the upper bound, not 60. *)
Lemma inverted_clip_not_lower_bound :
  exists (arr : ndarray Q) (lo hi : Q),
    windowing (astype_float64 (IntPixels (mk_ndarray [1; 2]%nat [0; 100]%Z)))
      (Some 50) (Some (-20)) = Ok (arr, lo, hi) /\
    lo == 60 /\ hi == 40 /\ hi < lo /\
    Forall (fun x => x == 40) (data arr) /\
    ~ Forall (fun x => x == lo) (data arr).
Proof.
  eexists _, _, _. split; [reflexivity|].
  split; [vm_compute; reflexivity|]. split; [vm_compute; reflexivity|].
  split; [vm_compute; reflexivity|]. split.
  - repeat constructor; vm_compute; reflexivity.
  - intros H. apply Forall_inv in H. vm_compute in H. discriminate.
Qed.

(** C4, amended. When the window gives an inverted range [lo > hi], the clip
    step sets every sample to [hi], the upper bound, and the normaliser
    returns the all-zero array. *)
Theorem inverted_window_clips_to_upper
    (p : pixels) (c w : Q) (arr : ndarray Q) (lo hi : Q) :
  windowing (astype_float64 p) (Some c) (Some w) = Ok (arr, lo, hi) ->
  hi < lo ->
  Forall (fun x => x = hi) (data arr) /\
  List.length (data arr) = List.length (samples p) /\
  normalize_pixel_array p (Some c) (Some w)
  = Ok (mk_ndarray (pixels_shape p) (repeat 0%Z (List.length (samples p)))).
Proof.
  intros Hw Hr. split; [|split].
  - cbn in Hw. injection Hw as <- <- <-. cbn [np_clip np_map data].
    apply Forall_map, Forall_forall. intros x _. now apply clip_inverted.
  - destruct (astype_float64_data p) as (h & _ & Hd & _).
    cbn in Hw. injection Hw as <- _ _. cbn [np_clip np_map data].
    now rewrite Hd, !length_map.
  - eapply degenerate_range_zero; [exact Hw | lra].
Qed.

Lemma inverted_window_clips_to_upper_witness :
  Forall (fun x => x = fadd 50 (floordiv2 (-20)))
    (data (np_clip (astype_float64 (IntPixels (mk_ndarray [1; 2]%nat [0; 100]%Z)))
             (fsub 50 (floordiv2 (-20))) (fadd 50 (floordiv2 (-20))))) /\
  List.length
    (data (np_clip (astype_float64 (IntPixels (mk_ndarray [1; 2]%nat [0; 100]%Z)))
             (fsub 50 (floordiv2 (-20))) (fadd 50 (floordiv2 (-20))))) = 2%nat /\
  normalize_pixel_array (IntPixels (mk_ndarray [1; 2]%nat [0; 100]%Z))
    (Some 50) (Some (-20))
  = Ok (mk_ndarray [1; 2]%nat [0; 0]%Z).
Proof.
  apply (inverted_window_clips_to_upper
           (IntPixels (mk_ndarray [1; 2]%nat [0; 100]%Z)) 50 (-20) _
           (fsub 50 (floordiv2 (-20))) (fadd 50 (floordiv2 (-20)))).
  - reflexivity.
  - vm_compute. reflexivity.
Defined.

(** C1, as stated, fails: for [[0,100]] with centre 50 and width 400 the
    window is [-150, 250]; the windowed normalisation gives [[95,159]], the
    full-range normalisation of the clipped array gives [[0,255]]. *)
Lemma windowed_differs_from_clip_then_full_range :
  normalize_pixel_array (IntPixels (mk_ndarray [1; 2]%nat [0; 100]%Z))
    (Some 50) (Some 400)
  = Ok (mk_ndarray [1; 2]%nat [95; 159]%Z) /\
  normalize_pixel_array
    (np_clip_pixels (IntPixels (mk_ndarray [1; 2]%nat [0; 100]%Z))
       (fsub 50 (floordiv2 400)) (fadd 50 (floordiv2 400)))
    None None
  = Ok (mk_ndarray [1; 2]%nat [0; 255]%Z) /\
  normalize_pixel_array (IntPixels (mk_ndarray [1; 2]%nat [0; 100]%Z))
    (Some 50) (Some 400)
  <> normalize_pixel_array
       (np_clip_pixels (IntPixels (mk_ndarray [1; 2]%nat [0; 100]%Z))
          (fsub 50 (floordiv2 400)) (fadd 50 (floordiv2 400)))
       None None.
Proof.
  split; [vm_compute; reflexivity|]. split; [vm_compute; reflexivity|].
  vm_compute. discriminate.
Qed.

Lemma all_close_min_max (a : ndarray Q) (v mn mx : Q) :
  Forall (fun x => x == v) (data a) ->
  np_min a = Ok mn -> np_max a = Ok mx -> mx <= mn.
Proof.
  intros H Hmin Hmax. rewrite Forall_forall in H.
  destruct (np_min_spec _ _ Hmin) as [I1 _]. destruct (np_max_spec _ _ Hmax) as [I2 _].
  rewrite (H _ I1), (H _ I2). apply Qle_refl.
Qed.

(** C1, amended. The windowed normalisation equals the full-range
    normalisation of the clipped array when the clipped array is not empty
    and either spans the whole window (its minimum is [lo] and its maximum
    is [hi]) or the window is degenerate ([hi <= lo]). *)
Theorem windowed_equals_clip_then_full_range (p : pixels) (c w mn mx : Q) :
  let lo := fsub c (floordiv2 w) in
  let hi := fadd c (floordiv2 w) in
  np_min (np_clip (astype_float64 p) lo hi) = Ok mn ->
  np_max (np_clip (astype_float64 p) lo hi) = Ok mx ->
  hi <= lo \/ (mn == lo /\ mx == hi) ->
  normalize_pixel_array p (Some c) (Some w)
  = normalize_pixel_array (np_clip_pixels p lo hi) None None.
Proof.
  intros lo hi Hmin Hmax H.
  unfold normalize_pixel_array, np_clip_pixels.
  cbn [astype_float64 windowing bind]. fold lo hi.
  set (C := np_clip (astype_float64 p) lo hi) in *.
  rewrite Hmin, Hmax. cbn [bind]. f_equal.
  destruct (Qlt_le_dec lo hi) as [L|L].
  - destruct H as [H|[E1 E2]]; [exfalso; lra|].
    rewrite !rescale_proper by lra.
    unfold astype_uint8, np_map. cbn [shape data]. f_equal.
    rewrite !map_map. apply map_ext. intros x. now rewrite E1, E2.
  - rewrite rescale_degenerate by exact L.
    rewrite rescale_degenerate; [reflexivity|].
    apply (all_close_min_max C hi); [|exact Hmin|exact Hmax].
    unfold C. cbn [np_clip np_map data].
    apply Forall_map, Forall_forall. intros x _. now apply clip_degenerate.
Qed.

Lemma windowed_equals_clip_then_full_range_witness :
  normalize_pixel_array (IntPixels (mk_ndarray [1; 3]%nat [-20; 30; 500]%Z))
    (Some 50) (Some 100)
  = normalize_pixel_array
      (np_clip_pixels (IntPixels (mk_ndarray [1; 3]%nat [-20; 30; 500]%Z))
         (fsub 50 (floordiv2 100)) (fadd 50 (floordiv2 100)))
      None None.
Proof.
  apply (windowed_equals_clip_then_full_range
           (IntPixels (mk_ndarray [1; 3]%nat [-20; 30; 500]%Z)) 50 100
           (fsub 50 (floordiv2 100)) (fadd 50 (floordiv2 100))).
  - reflexivity.
  - reflexivity.
  - right. split; apply Qeq_refl.
Defined.

(** The divisor of line 43 is positive for a decoded (integer) array: the
    division never meets a zero. *)
Lemma display_range_width_pos
    (a : ndarray Z) (wc ww : option Q) (arr : ndarray Q) (lo hi : Q) :
  windowing (astype_float64 (IntPixels a)) wc ww = Ok (arr, lo, hi) ->
  lo < hi -> 0 < fsub hi lo.
Proof.
  intros Hw Hr.
  assert (Full : (img_min <- np_min (astype_float64 (IntPixels a)) ;;
                  img_max <- np_max (astype_float64 (IntPixels a)) ;;
                  Ok (astype_float64 (IntPixels a), img_min, img_max))
                 = Ok (arr, lo, hi) -> on_grid lo /\ on_grid hi).
  { clear Hw. intros H.
    destruct (np_min _) as [mn|] eqn:Emin; [|discriminate].
    destruct (np_max _) as [mx|] eqn:Emax; [|discriminate].
    cbn in H. injection H as _ <- <-.
    destruct (np_min_spec _ _ Emin) as [I1 _]. destruct (np_max_spec _ _ Emax) as [I2 _].
    cbn in I1, I2. apply in_map_iff in I1, I2.
    destruct I1 as (z1 & <- & _). destruct I2 as (z2 & <- & _).
    split; apply fl_on_grid. }
  assert (G : on_grid lo /\ on_grid hi).
  { unfold windowing in Hw. destruct wc as [c|]; [destruct ww as [w|]|]; auto.
    injection Hw as _ <- <-. split; apply fl_on_grid. }
  destruct G. now apply fsub_pos.
Qed.

(** ** The orchestrator: the claims *)

Lemma Zmax_list_spec (xs : list Z) (x : Z) :
  In (Zmax_list x xs) (x :: xs) /\
  Forall (fun y => (y <= Zmax_list x xs)%Z) (x :: xs).
Proof.
  unfold Zmax_list. revert x. induction xs as [|y ys IH]; intros x; cbn [fold_left].
  - split; [now left | constructor; [lia | constructor]].
  - destruct (IH (Z.max x y)) as [Hin Hall].
    apply Forall_cons_iff in Hall. destruct Hall as [Hm Hall]. split.
    + destruct Hin as [E|Hin]; [|right; now right].
      rewrite <- E. destruct (Z.max_spec x y) as [[_ ->]|[_ ->]];
        [right; now left | now left].
    + constructor; [lia|]. constructor; [lia | exact Hall].
Qed.

Local Open Scope string_scope.

(** C5. For a MONOCHROME1 dataset the code computes [np.max(a) - a] on the
    decoded array before it reads the window parameters, but in the integer
    dtype of the array.  On the int16 image [[-20000, 0, 20000]] the
    differences 40000, 20000, 0 do not fit: the array handed to the
    normaliser is [[-25536, 20000, 0]], not max - pixels, and it is
    displayed as [[0, 255, 143]], which is no inversion of the image.  The
    order of the two steps is observable: for the uint8 image [[0,10,100]]
    with centre 20 and width 40, inverting then windowing gives
    [[255,255,0]] while windowing then inverting gives [[255,192,0]]. *)
Theorem monochrome1_inversion_wraps :
  let a := mk_ndarray [1; 3]%nat [-20000; 0; 20000]%Z in
  let dicom := mk_dataset (Some a) (Some "MONOCHROME1") None None int16 in
  Forall (in_dtype int16) (data a) /\
  np_map (fun p => (20000 - p)%Z) a = mk_ndarray [1; 3]%nat [40000; 20000; 0]%Z /\
  normalizer_call dicom true
  = Ok (mk_ndarray [1; 3]%nat [-25536; 20000; 0]%Z, None, None) /\
  normalize_pixel_array (IntPixels (mk_ndarray [1; 3]%nat [-25536; 20000; 0]%Z))
    None None
  = Ok (mk_ndarray [1; 3]%nat [0; 255; 143]%Z) /\
  (ia <- invert uint8 (mk_ndarray [1; 3]%nat [0; 10; 100]%Z) ;;
   normalize_pixel_array (IntPixels ia) (Some 20) (Some 40))
  = Ok (mk_ndarray [1; 3]%nat [255; 255; 0]%Z) /\
  (n <- normalize_pixel_array (IntPixels (mk_ndarray [1; 3]%nat [0; 10; 100]%Z))
          (Some 20) (Some 40) ;;
   invert uint8 n)
  = Ok (mk_ndarray [1; 3]%nat [255; 192; 0]%Z).
Proof.
  cbv zeta. split.
  - repeat constructor; unfold in_dtype; cbn; lia.
  - repeat split; vm_compute; reflexivity.
Qed.

(** C6. With windowing on and both attributes present, a multi-valued
    attribute contributes its first element only: the normaliser is called
    with the first centre and the first width; for centre [40, 400] and
    width [80, 1] it is called with centre 40 and width 80. *)
Theorem multivalue_window_uses_first :
  (forall (x : Q) (xs : list Q), first_value (MultiValue (x :: xs)) = Ok x) /\
  (forall (dicom : dataset) (cv wv : ds_value) (c w : Q),
     WindowCenter dicom = Some cv -> WindowWidth dicom = Some wv ->
     first_value cv = Ok c -> first_value wv = Ok w ->
     window_parameters dicom true = Ok (Some c, Some w) /\
     normalizer_call dicom true
     = (a <- pixel_array dicom ;; a <- photometric dicom a ;; Ok (a, Some c, Some w))) /\
  (forall (px : option (ndarray Z)) (pi : option string) (dt : dtype),
     let dicom :=
       mk_dataset px pi (Some (MultiValue [40; 400])) (Some (MultiValue [80; 1])) dt in
     normalizer_call dicom true
     = (a <- pixel_array dicom ;; a <- photometric dicom a ;; Ok (a, Some 40, Some 80))).
Proof.
  split; [reflexivity|]. split.
  - intros dicom cv wv c w Hc Hw Fc Fw.
    assert (P : window_parameters dicom true = Ok (Some c, Some w))
      by (unfold window_parameters; now rewrite Hc, Hw, Fc, Fw).
    split; [exact P|]. unfold normalizer_call. rewrite P.
    destruct (pixel_array dicom) as [a|e]; [|reflexivity]. cbn [bind].
    destruct (photometric dicom a); reflexivity.
  - intros px pi dt dicom. unfold normalizer_call.
    destruct (pixel_array dicom) as [a|e]; [|reflexivity]. cbn [bind].
    destruct (photometric dicom a); reflexivity.
Qed.

Lemma multivalue_window_uses_first_witness :
  normalizer_call
    (mk_dataset (Some (mk_ndarray [1; 2]%nat [0; 100]%Z)) (Some "MONOCHROME2")
       (Some (MultiValue [40; 400])) (Some (Scalar 80)) uint8) true
  = Ok (mk_ndarray [1; 2]%nat [0; 100]%Z, Some 40, Some 80).
Proof.
  destruct multivalue_window_uses_first as (_ & H & _).
  destruct (H (mk_dataset (Some (mk_ndarray [1; 2]%nat [0; 100]%Z)) (Some "MONOCHROME2")
                 (Some (MultiValue [40; 400])) (Some (Scalar 80)) uint8)
              (MultiValue [40; 400]) (Scalar 80) 40 80
              eq_refl eq_refl eq_refl eq_refl) as [_ E].
  exact E.
Defined.

Lemma convert_of_raise (os : platform) (dicom_path : string)
    (output_path : option string) (apply_windowing : bool) (e : exn) :
  convert_body os dicom_path output_path apply_windowing = Raise e ->
  convert_dicom_to_png os dicom_path output_path apply_windowing
  = (None, [ErrorConverting dicom_path e]).
Proof. intros H. unfold convert_dicom_to_png. now rewrite H. Qed.

Lemma convert_of_decode_error (os : platform) (dicom_path : string)
    (output_path : option string) (apply_windowing : bool) (e : exn) :
  dcmread os dicom_path = Raise e ->
  convert_dicom_to_png os dicom_path output_path apply_windowing
  = (None, [ErrorConverting dicom_path e]).
Proof.
  intros H. apply convert_of_raise. unfold convert_body. now rewrite H.
Qed.

(** A conversion that gives no result leaves the rest of the batch as it
    would be without that file, one error line apart. *)
Lemma convert_each_skips_failure (os : platform) (output_dir : option string)
    (dicom_path : string) (rest converted_files : list string) (e : exn) :
  (forall output_path,
     convert_dicom_to_png os dicom_path output_path true
     = (None, [ErrorConverting dicom_path e])) ->
  convert_each os output_dir (dicom_path :: rest) converted_files
  = (fst (convert_each os output_dir rest converted_files),
     ErrorConverting dicom_path e
       :: snd (convert_each os output_dir rest converted_files)).
Proof.
  intros H. cbn [convert_each]. rewrite H. cbn [truthy].
  destruct (convert_each os output_dir rest converted_files). reflexivity.
Qed.

(** One turn of the loop, with the output path named. *)
Lemma convert_each_step (os : platform) (output_dir : option string)
    (dicom_path : string) (rest converted_files : list string) :
  convert_each os output_dir (dicom_path :: rest) converted_files
  = (let '(res, out) :=
       convert_dicom_to_png os dicom_path
         (batch_output_path os output_dir dicom_path) true in
     let converted_files :=
       if truthy res then
         match res with
         | Some p => (converted_files ++ [p])%list
         | None => converted_files
         end
       else converted_files in
     let '(final, out') := convert_each os output_dir rest converted_files in
     (final, (out ++ out')%list)).
Proof. reflexivity. Qed.

(** The paths a conversion adds to the list of the batch. *)
Lemma convert_each_flat_map (os : platform) (output_dir : option string)
    (dicom_files converted_files : list string) :
  convert_each os output_dir dicom_files converted_files
  = ((converted_files
      ++ flat_map
           (fun f =>
              match fst (convert_dicom_to_png os f
                           (batch_output_path os output_dir f) true) with
              | Some p => if String.eqb p "" then [] else [p]
              | None => []
              end) dicom_files)%list,
     flat_map
       (fun f => snd (convert_dicom_to_png os f
                        (batch_output_path os output_dir f) true)) dicom_files).
Proof.
  revert converted_files. induction dicom_files as [|f rest IH]; intros acc.
  - cbn. now rewrite app_nil_r.
  - rewrite convert_each_step. cbn [flat_map].
    destruct (convert_dicom_to_png os f (batch_output_path os output_dir f) true)
      as [res out].
    rewrite IH. cbn [fst snd]. f_equal.
    destruct res as [p|]; cbn [truthy]; [|reflexivity].
    destruct (String.eqb p ""); cbn [negb]; [reflexivity|].
    now rewrite <- app_assoc.
Qed.

(** The failing stage of a conversion: decoding, extraction, normalisation,
    building the image, saving it. *)
Lemma convert_body_raise (os : platform) (dicom_path : string)
    (output_path : option string) (apply_windowing : bool) (e : exn) :
  convert_body os dicom_path output_path apply_windowing = Raise e <->
  dcmread os dicom_path = Raise e \/
  exists dicom : dataset,
    dcmread os dicom_path = Ok dicom /\
    (normalizer_call dicom apply_windowing = Raise e \/
     exists (a : ndarray Z) (wc ww : option Q),
       normalizer_call dicom apply_windowing = Ok (a, wc, ww) /\
       (normalize_pixel_array (IntPixels a) wc ww = Raise e \/
        exists n : ndarray Z,
          normalize_pixel_array (IntPixels a) wc ww = Ok n /\
          (Image_fromarray os n
             (if Nat.eqb (List.length (shape n)) 3 then None else Some "L")
           = Raise e \/
           exists im : image,
             Image_fromarray os n
               (if Nat.eqb (List.length (shape n)) 3 then None else Some "L")
             = Ok im /\
             Image_save os im
               match output_path with
               | Some q => q
               | None => default_output_path os dicom_path
               end = Raise e))).
Proof.
  unfold convert_body. split.
  - intros H.
    destruct (dcmread os dicom_path) as [dicom|e1] eqn:E1; cbn [bind] in H;
      [|injection H as ->; now left].
    right. exists dicom. split; [reflexivity|].
    destruct (normalizer_call dicom apply_windowing) as [[[a wc] ww]|e2] eqn:E2;
      cbn [bind] in H; [|injection H as ->; now left].
    right. exists a, wc, ww. split; [reflexivity|].
    destruct (normalize_pixel_array (IntPixels a) wc ww) as [n|e3] eqn:E3;
      cbn [bind] in H; [|injection H as ->; now left].
    right. exists n. split; [reflexivity|].
    destruct (Nat.eqb (List.length (shape n)) 3).
    + destruct (Image_fromarray os n None) as [im|e4] eqn:E4;
        cbn [bind] in H; [|injection H as ->; now left].
      right. exists im. split; [reflexivity|].
      destruct (Image_save os im _) as [[]|e5]; cbn [bind] in H;
        [discriminate | now injection H as ->].
    + destruct (Image_fromarray os n (Some "L")) as [im|e4] eqn:E4;
        cbn [bind] in H; [|injection H as ->; now left].
      right. exists im. split; [reflexivity|].
      destruct (Image_save os im _) as [[]|e5]; cbn [bind] in H;
        [discriminate | now injection H as ->].
  - intros [H|(dicom & H1 & [H2|(a & wc & ww & H2 & [H3|(n & H3 & H4)])])].
    + now rewrite H.
    + rewrite H1. cbn [bind]. now rewrite H2.
    + rewrite H1. cbn [bind]. rewrite H2. cbn [bind]. now rewrite H3.
    + rewrite H1. cbn [bind]. rewrite H2. cbn [bind]. rewrite H3. cbn [bind].
      destruct (Nat.eqb (List.length (shape n)) 3);
        destruct H4 as [H4|(im & H4 & H5)]; rewrite H4; cbn [bind];
        try reflexivity; now rewrite H5.
Qed.

(** C9. An error raised at any stage of a single conversion (decoding,
    extraction, normalisation, building or saving the image) is turned into
    "no result" and one error line naming the input, and a conversion gives
    no result only in that way; it is not raised further.  In a batch a
    failing input, whatever the stage of the failure, is skipped and every
    other input is converted as it would be alone: three matching files of
    which one fails give two converted paths, reported as 2 of 3. *)
Theorem conversion_errors_are_isolated :
  (forall (os : platform) (dicom_path : string) (output_path : option string)
          (apply_windowing : bool) (e : exn),
     convert_dicom_to_png os dicom_path output_path apply_windowing
     = (None, [ErrorConverting dicom_path e]) <->
     dcmread os dicom_path = Raise e \/
     exists dicom : dataset,
       dcmread os dicom_path = Ok dicom /\
       (normalizer_call dicom apply_windowing = Raise e \/
        exists (a : ndarray Z) (wc ww : option Q),
          normalizer_call dicom apply_windowing = Ok (a, wc, ww) /\
          (normalize_pixel_array (IntPixels a) wc ww = Raise e \/
           exists n : ndarray Z,
             normalize_pixel_array (IntPixels a) wc ww = Ok n /\
             (Image_fromarray os n
                (if Nat.eqb (List.length (shape n)) 3 then None else Some "L")
              = Raise e \/
              exists im : image,
                Image_fromarray os n
                  (if Nat.eqb (List.length (shape n)) 3 then None else Some "L")
                = Ok im /\
                Image_save os im
                  match output_path with
                  | Some q => q
                  | None => default_output_path os dicom_path
                  end = Raise e)))) /\
  (forall (os : platform) (dicom_path : string) (output_path : option string)
          (apply_windowing : bool) (evs : list event),
     convert_dicom_to_png os dicom_path output_path apply_windowing = (None, evs) ->
     exists e : exn,
       evs = [ErrorConverting dicom_path e] /\
       convert_body os dicom_path output_path apply_windowing = Raise e) /\
  (forall (os : platform) (output_dir : option string) (dicom_path : string)
          (rest converted_files : list string) (e : exn),
     convert_body os dicom_path (batch_output_path os output_dir dicom_path) true
     = Raise e ->
     convert_each os output_dir (dicom_path :: rest) converted_files
     = (fst (convert_each os output_dir rest converted_files),
        ErrorConverting dicom_path e
          :: snd (convert_each os output_dir rest converted_files))) /\
  (forall (os : platform) (output_dir : option string)
          (dicom_files converted_files : list string),
     fst (convert_each os output_dir dicom_files converted_files)
     = (converted_files
        ++ flat_map
             (fun f =>
                match fst (convert_dicom_to_png os f
                             (batch_output_path os output_dir f) true) with
                | Some p => if String.eqb p "" then [] else [p]
                | None => []
                end) dicom_files)%list) /\
  (forall (os : platform) (input_path pattern : string)
          (f1 f2 f3 p1 p3 : string) (out1 out3 : list event) (e : exn),
     glob_glob os (os_path_join os input_path pattern) = [f1; f2; f3] ->
     convert_dicom_to_png os f1 None true = (Some p1, out1) -> p1 <> "" ->
     convert_body os f2 None true = Raise e ->
     convert_dicom_to_png os f3 None true = (Some p3, out3) -> p3 <> "" ->
     batch_convert_dicom_to_png os input_path None pattern
     = (Ok [p1; p3],
        (Found 3 :: out1 ++ ErrorConverting f2 e :: out3 ++ [Summary 2 3])%list)).
Proof.
  split; [|split; [|split; [|split]]].
  - intros os path outp aw e. rewrite <- convert_body_raise.
    unfold convert_dicom_to_png.
    destruct (convert_body os path outp aw) as [[p evs]|e']; split;
      try discriminate; [now intros [= ->] | now intros [= ->]].
  - intros os path outp aw evs. unfold convert_dicom_to_png.
    destruct (convert_body os path outp aw) as [[p evs']|e]; [discriminate|].
    intros [= <-]. exists e. auto.
  - intros os od f rest acc e H. rewrite convert_each_step.
    rewrite (convert_of_raise _ _ _ _ _ H). cbn [truthy].
    destruct (convert_each os od rest acc). reflexivity.
  - intros os od files acc. now rewrite convert_each_flat_map.
  - intros os input pattern f1 f2 f3 p1 p3 out1 out3 e Hg H1 N1 H2 H3 N3.
    unfold batch_convert_dicom_to_png. rewrite Hg. cbn [truthy].
    cbn [convert_each truthy]. rewrite H1, H3.
    rewrite (convert_of_raise os f2 None true e H2).
    apply String.eqb_neq in N1, N3. cbn [truthy]. rewrite N1, N3.
    cbn. rewrite app_nil_r, <- app_assoc. reflexivity.
Qed.

Lemma conversion_errors_are_isolated_witness :
  (exists out : list event,
     batch_convert_dicom_to_png example_platform "scans" None "*.dcm"
     = (Ok ["scans/a.png"; "scans/c.png"], out) /\
     In (ErrorConverting "scans/b.dcm" InvalidDicomError) out /\
     In (Summary 2 3) out) /\
  (exists out : list event,
     batch_convert_dicom_to_png example_platform_no_pixels "scans" None "*.dcm"
     = (Ok ["scans/a.png"; "scans/c.png"], out) /\
     In (ErrorConverting "scans/b.dcm" AttributeError) out /\
     In (Summary 2 3) out).
Proof.
  destruct conversion_errors_are_isolated as (_ & _ & _ & _ & H).
  split.
  - pose proof (H example_platform "scans" "*.dcm"
                  "scans/a.dcm" "scans/b.dcm" "scans/c.dcm" "scans/a.png" "scans/c.png"
                  (snd (convert_dicom_to_png example_platform "scans/a.dcm" None true))
                  (snd (convert_dicom_to_png example_platform "scans/c.dcm" None true))
                  InvalidDicomError) as E.
    eexists. split.
    + apply E.
      * reflexivity.
      * vm_compute. reflexivity.
      * discriminate.
      * reflexivity.
      * vm_compute. reflexivity.
      * discriminate.
    + split.
      * apply in_cons, in_or_app. right. now left.
      * apply in_cons, in_or_app. right. apply in_cons, in_or_app. right. now left.
  - pose proof (H example_platform_no_pixels "scans" "*.dcm"
                  "scans/a.dcm" "scans/b.dcm" "scans/c.dcm" "scans/a.png" "scans/c.png"
                  (snd (convert_dicom_to_png example_platform_no_pixels
                          "scans/a.dcm" None true))
                  (snd (convert_dicom_to_png example_platform_no_pixels
                          "scans/c.dcm" None true))
                  AttributeError) as E.
    eexists. split.
    + apply E.
      * reflexivity.
      * vm_compute. reflexivity.
      * discriminate.
      * reflexivity.
      * vm_compute. reflexivity.
      * discriminate.
    + split.
      * apply in_cons, in_or_app. right. now left.
      * apply in_cons, in_or_app. right. apply in_cons, in_or_app. right. now left.
Defined.

Local Close Scope string_scope.

(** * Further properties *)

(** ** Doubles are fixed by the rounding *)

Module Float64Exact.
Import Float64Facts.

Lemma ilog2_lt (x : Q) (k : Z) : 0 < x -> x < 2 ^ k -> (ilog2 x < k)%Z.
Proof.
  intros Hx H. destruct (ilog2_spec x Hx) as [L _].
  apply (Qpower_lt_compat_l_inv 2); [lra | reflexivity].
Qed.

Lemma rne_compat (x y : Q) : x == y -> rne x = rne y.
Proof.
  intros H. apply Z.le_antisymm; apply rne_mono; rewrite H; apply Qle_refl.
Qed.

(** A positive value with a significand below 2^53 and an exponent not
    under [emin] is a double. *)
Lemma fl_pos_exact (m e : Z) :
  (0 < m < 2 ^ 53)%Z -> (emin <= e)%Z ->
  fl_pos (inject_Z m * 2 ^ e) == inject_Z m * 2 ^ e.
Proof.
  intros Hm He. set (x := inject_Z m * 2 ^ e).
  pose proof (pow2_pos e) as Pe.
  assert (Hm0 : 0 < inject_Z m) by (change 0 with (inject_Z 0); rewrite <- Zlt_Qlt; lia).
  assert (Hx : 0 < x) by (unfold x; nra).
  assert (Hk : (ilog2 x < 53 + e)%Z).
  { apply ilog2_lt; [exact Hx|]. rewrite Qpower_plus by discriminate.
    rewrite <- pow2_inject by lia. unfold x.
    apply Qmult_lt_compat_r; [exact Pe|]. rewrite <- Zlt_Qlt. lia. }
  unfold fl_pos. set (E := ulp_exp x).
  assert (HE : (E <= e)%Z) by (unfold E, ulp_exp, mant_bits; lia).
  pose proof (pow2_pos E) as PE.
  assert (Hq : x / 2 ^ E == inject_Z (m * 2 ^ (e - E))).
  { rewrite inject_Z_mult, pow2_inject by lia. unfold x.
    replace e with ((e - E) + E)%Z at 1 by lia.
    rewrite Qpower_plus by discriminate. field. lra. }
  rewrite (rne_compat _ _ Hq), rne_Z, <- Hq. field. lra.
Qed.

Lemma fl_pos_compat (x y : Q) : 0 < x -> x == y -> fl_pos x == fl_pos y.
Proof.
  intros Hx H. apply Qle_antisym; apply fl_pos_mono; rewrite ?H; try lra;
    rewrite <- ?H; lra.
Qed.

Lemma fl_pos_exact_top (e : Z) :
  (emin <= e)%Z -> fl_pos (inject_Z (2 ^ 53) * 2 ^ e) == inject_Z (2 ^ 53) * 2 ^ e.
Proof.
  intros He.
  assert (E : inject_Z (2 ^ 53) * 2 ^ e == inject_Z (2 ^ 52) * 2 ^ (e + 1)).
  { rewrite pow2_succ. change (inject_Z (2 ^ 53)) with (2 * inject_Z (2 ^ 52)). ring. }
  assert (P : 0 < inject_Z (2 ^ 53) * 2 ^ e)
    by (apply Qmult_lt_0_compat; [reflexivity | apply pow2_pos]).
  rewrite (fl_pos_compat _ _ P E).
  rewrite E. apply fl_pos_exact; [lia | lia].
Qed.

(** The significand produced by the rounding has at most 53 bits. *)
Lemma fl_pos_significand (x : Q) :
  0 < x -> (0 <= rne (x / 2 ^ ulp_exp x) <= 2 ^ 53)%Z.
Proof.
  intros Hx. set (E := ulp_exp x). pose proof (pow2_pos E) as PE.
  destruct (ilog2_spec x Hx) as [_ U].
  assert (HE : (ilog2 x + 1 <= E + 53)%Z) by (unfold E, ulp_exp, mant_bits; lia).
  split.
  - apply rne_ge. change (inject_Z 0) with 0.
    apply Qle_shift_div_l; [exact PE | lra].
  - apply rne_le. rewrite pow2_inject by lia.
    apply Qle_shift_div_r; [exact PE|].
    rewrite <- Qpower_plus by discriminate.
    pose proof (pow2_le _ _ HE). replace (53 + E)%Z with (E + 53)%Z by lia. lra.
Qed.

Lemma fl_pos_idem (x : Q) : 0 < x -> fl (fl_pos x) == fl_pos x.
Proof.
  intros Hx. pose proof (fl_pos_significand x Hx) as [M0 M1].
  unfold fl_pos at 2. unfold fl_pos at 1. 
  set (E := ulp_exp x) in *. set (m := rne (x / 2 ^ E)) in *.
  assert (HE : (emin <= E)%Z) by (unfold E, ulp_exp; lia).
  pose proof (pow2_pos E) as PE.
  destruct (Z.eq_dec m 0) as [Z0|NZ].
  - rewrite Z0. rewrite fl_zero; [|ring]. ring.
  - assert (P : 0 < inject_Z m * 2 ^ E).
    { assert (0 < inject_Z m) by (change 0 with (inject_Z 0); rewrite <- Zlt_Qlt; lia). nra. }
    unfold fl. apply Qgt_alt in P as C. rewrite C.
    destruct (Z.eq_dec m (2 ^ 53)) as [T|T].
    + rewrite T. now apply fl_pos_exact_top.
    + apply fl_pos_exact; [lia | exact HE].
Qed.

(** The rounding is a projection: a rounded value is a double. *)
Lemma fl_idem (x : Q) : fl (fl x) == fl x.
Proof.
  unfold fl at 2 3. destruct (Qcompare_spec x 0) as [E|L|G].
  - rewrite fl_zero by reflexivity. reflexivity.
  - pose proof (fl_pos_idem (- x) ltac:(lra)) as I.
    pose proof (fl_pos_nonneg (- x) ltac:(lra)) as N.
    destruct (Qeq_dec (fl_pos (- x)) 0) as [Z0|NZ].
    + rewrite fl_zero; lra.
    + unfold fl at 1.
      destruct (Qcompare_spec (- fl_pos (- x)) 0) as [E1|L1|G1]; [lra| |lra].
      assert (F : fl_pos (- - fl_pos (- x)) == fl_pos (- x)).
      { unfold fl in I.
        destruct (Qcompare_spec (fl_pos (- x)) 0) as [E2|L2|G2]; [lra|lra|].
        rewrite <- I at 2. apply fl_pos_compat; [lra | ring]. }
      rewrite F. reflexivity.
  - now apply fl_pos_idem.
Qed.

(** Integers of at most 53 bits are doubles. *)
Lemma of_int_exact (z : Z) : (Z.abs z <= 2 ^ 53)%Z -> of_int z == inject_Z z.
Proof.
  intros H. unfold of_int.
  assert (P : forall n : Z, (0 < n <= 2 ^ 53)%Z -> fl_pos (inject_Z n) == inject_Z n).
  { intros n Hn.
    assert (E : inject_Z n == inject_Z n * 2 ^ 0) by (change (2 ^ 0) with 1; ring).
    assert (N0 : 0 < inject_Z n) by (change 0 with (inject_Z 0); rewrite <- Zlt_Qlt; lia).
    rewrite (fl_pos_compat _ _ N0 E). rewrite E at 2.
    destruct (Z.eq_dec n (2 ^ 53)) as [T|T].
    - rewrite T. apply fl_pos_exact_top. unfold emin. lia.
    - apply fl_pos_exact; [lia | unfold emin; lia]. }
  unfold fl. destruct (Qcompare_spec (inject_Z z) 0) as [E|L|G].
  - now rewrite E.
  - change 0 with (inject_Z 0) in L. rewrite <- Zlt_Qlt in L.
    rewrite <- inject_Z_opp, P by lia. rewrite inject_Z_opp. ring.
  - change 0 with (inject_Z 0) in G. rewrite <- Zlt_Qlt in G. apply P. lia.
Qed.

End Float64Exact.

Import Float64Exact.

(** ** More on the normaliser *)

Lemma rescale_sample_at_lo (lo hi x : Q) : x == lo -> rescale_sample lo hi x == 0.
Proof.
  intros E. unfold rescale_sample, fmul, fdiv, fsub.
  assert (A : fl (x - lo) = 0) by (apply fl_zero; lra).
  rewrite A.
  assert (B : fl (0 / fl (hi - lo)) = 0) by (apply fl_zero; unfold Qdiv; ring).
  rewrite B. rewrite fl_zero; [reflexivity | ring].
Qed.

Lemma rescale_sample_at_hi (lo hi x : Q) :
  0 < fsub hi lo -> x == hi -> rescale_sample lo hi x == 255.
Proof.
  intros D E. unfold rescale_sample, fmul, fdiv.
  assert (S : fsub x lo == fsub hi lo) by (unfold fsub; apply fl_compat; lra).
  assert (A : fsub x lo / fsub hi lo == 1) by (rewrite S; field; lra).
  assert (B : fl (fsub x lo / fsub hi lo) == 1)
    by (rewrite (fl_compat _ _ A); apply fl_1).
  apply Qeq_trans with (fl 255); [|apply fl_255].
  apply fl_compat. rewrite B. ring.
Qed.

Lemma to_uint8_255 : to_uint8 255 = 255%Z.
Proof. reflexivity. Qed.

(** Within [window_in_range] the window bounds are finite doubles. *)
Lemma window_bounds_finite (c w : Q) :
  window_in_range c w ->
  - 2 ^ 1023 <= fsub c (floordiv2 w) /\ fadd c (floordiv2 w) <= 2 ^ 1023.
Proof.
  intros [[C1 C2] [W1 W2]].
  assert (P3 : 2 ^ 1023 == 2 * 2 ^ 1022) by (apply (pow2_succ 1022)).
  assert (P2 : 2 ^ 1022 == 2 * 2 ^ 1021) by (apply (pow2_succ 1021)).
  pose proof (pow2_pos 1021) as P1.
  assert (One : 1 <= 2 ^ 1021).
  { change 1 with (2 ^ 0). apply pow2_le. lia. }
  set (T := 2 ^ 1023) in *. set (U := 2 ^ 1022) in *. set (V := 2 ^ 1021) in *.
  assert (F : - V - 1 <= floordiv2 w <= V).
  { unfold floordiv2. pose proof (Qfloor_le (w / 2)) as L.
    pose proof (Qlt_floor (w / 2)) as G. rewrite inject_Z_plus in G.
    change (inject_Z 1) with 1 in G.
    assert (H2 : w / 2 * 2 == w) by (field). nra. }
  split.
  - apply Qle_trans with (fl (- T)).
    + assert (E : fl (- 2 ^ 1023) == - 2 ^ 1023) by (vm_compute; reflexivity).
      fold T in E. rewrite E. apply Qle_refl.
    + apply fl_mono. lra.
  - apply Qle_trans with (fl T).
    + apply fl_mono. lra.
    + assert (E : fl (2 ^ 1023) == 2 ^ 1023) by (vm_compute; reflexivity).
      fold T in E. rewrite E. apply Qle_refl.
Qed.

(** With window parameters in range, a sample at or below the lower window
    bound is displayed as 0 and a sample at or above the upper bound as
    255; the bounds themselves are finite doubles. *)
Theorem window_saturates (p : pixels) (c w : Q) :
  let lo := fsub c (floordiv2 w) in
  let hi := fadd c (floordiv2 w) in
  window_in_range c w ->
  lo < hi ->
  (- 2 ^ 1023 <= lo /\ hi <= 2 ^ 1023) /\
  exists out : ndarray Z,
    normalize_pixel_array p (Some c) (Some w) = Ok out /\
    forall (i : nat) (x : Q),
      nth_error (samples p) i = Some x ->
      (x <= lo -> nth_error (data out) i = Some 0%Z) /\
      (hi <= x -> nth_error (data out) i = Some 255%Z).
Proof.
  intros lo hi Hin Hr. split; [exact (window_bounds_finite c w Hin)|].
  assert (Hw : windowing (astype_float64 p) (Some c) (Some w)
               = Ok (np_clip (astype_float64 p) lo hi, lo, hi)) by reflexivity.
  assert (D : 0 < fsub hi lo) by (apply fsub_pos; [apply fl_on_grid .. | exact Hr]).
  assert (H : exists h : Q -> Q,
             data (astype_float64 p) = map h (samples p) /\
             (forall x, x <= lo -> h x <= lo) /\ (forall x, hi <= x -> hi <= h x)).
  { destruct p as [a|a]; cbn [astype_float64 samples np_map data].
    - exists fl. split; [unfold of_int; now rewrite map_map|]. split; intros x Hx.
      + apply Qle_trans with (fl lo); [now apply fl_mono|].
        unfold lo, fsub. rewrite fl_idem. apply Qle_refl.
      + apply Qle_trans with (fl hi); [|now apply fl_mono].
        unfold hi, fadd. rewrite fl_idem. apply Qle_refl.
    - exists (fun x => x). split; [now rewrite map_id | split; auto]. }
  destruct H as (h & Hd & Hlo & Hhi).
  eexists. split.
  - unfold normalize_pixel_array. rewrite Hw. cbn [bind].
    rewrite rescale_proper by exact Hr. reflexivity.
  - intros i x Hx. cbn [astype_uint8 np_map np_clip data].
    rewrite Hd, !map_map, nth_error_map, Hx. cbn [option_map]. split; intros B.
    + f_equal. rewrite <- to_uint8_zero. apply to_uint8_compat.
      apply rescale_sample_at_lo. apply clip_below; [lra | auto].
    + f_equal. rewrite <- to_uint8_255. apply to_uint8_compat.
      apply rescale_sample_at_hi; [exact D|]. apply clip_above; [lra | auto].
Qed.

Lemma window_saturates_witness :
  (- 2 ^ 1023 <= fsub 50 (floordiv2 100) /\ fadd 50 (floordiv2 100) <= 2 ^ 1023) /\
  exists out : ndarray Z,
    normalize_pixel_array (IntPixels (mk_ndarray [1; 3]%nat [-7; 60; 900]%Z))
      (Some 50) (Some 100) = Ok out /\
    forall (i : nat) (x : Q),
      nth_error [inject_Z (-7); inject_Z 60; inject_Z 900] i = Some x ->
      (x <= fsub 50 (floordiv2 100) -> nth_error (data out) i = Some 0%Z) /\
      (fadd 50 (floordiv2 100) <= x -> nth_error (data out) i = Some 255%Z).
Proof.
  apply (window_saturates (IntPixels (mk_ndarray [1; 3]%nat [-7; 60; 900]%Z)) 50 100).
  - unfold window_in_range. repeat split; vm_compute; discriminate.
  - vm_compute. reflexivity.
Defined.

Lemma np_min_of_least (l : list Z) (a : ndarray Q) (mn : Q) (z : Z) :
  data a = map of_int l -> np_min a = Ok mn ->
  In z l -> Forall (fun y => (z <= y)%Z) l -> of_int z == mn.
Proof.
  intros Hd Hm Hin Hall. destruct (np_min_spec _ _ Hm) as [I A].
  rewrite Hd in I, A. apply in_map_iff in I. destruct I as (z' & <- & Hz').
  rewrite Forall_forall in A, Hall. apply Qle_antisym.
  - apply fl_mono. rewrite <- Zle_Qle. now apply Hall.
  - apply A. now apply in_map.
Qed.

Lemma np_max_of_greatest (l : list Z) (a : ndarray Q) (mx : Q) (z : Z) :
  data a = map of_int l -> np_max a = Ok mx ->
  In z l -> Forall (fun y => (y <= z)%Z) l -> of_int z == mx.
Proof.
  intros Hd Hm Hin Hall. destruct (np_max_spec _ _ Hm) as [I A].
  rewrite Hd in I, A. apply in_map_iff in I. destruct I as (z' & <- & Hz').
  rewrite Forall_forall in A, Hall. apply Qle_antisym.
  - apply A. now apply in_map.
  - apply fl_mono. rewrite <- Zle_Qle. now apply Hall.
Qed.

Lemma full_range_windowing (a : ndarray Z) (arr : ndarray Q) (lo hi : Q) :
  windowing (astype_float64 (IntPixels a)) None None = Ok (arr, lo, hi) ->
  arr = astype_float64 (IntPixels a) /\
  np_min (astype_float64 (IntPixels a)) = Ok lo /\
  np_max (astype_float64 (IntPixels a)) = Ok hi.
Proof.
  cbn [windowing]. intros H.
  destruct (np_min _) as [mn|]; [|discriminate].
  destruct (np_max _) as [mx|]; [|discriminate].
  cbn in H. injection H as <- <- <-. auto.
Qed.

(** Without window, and unless all samples are equal, the least sample of a
    decoded image is displayed as 0 and the greatest as 255: the full
    dynamic range is stretched over the whole display range. *)
Theorem full_range_endpoints (a : ndarray Z) (arr : ndarray Q) (lo hi : Q) :
  windowing (astype_float64 (IntPixels a)) None None = Ok (arr, lo, hi) ->
  lo < hi ->
  exists out : ndarray Z,
    normalize_pixel_array (IntPixels a) None None = Ok out /\
    forall (i : nat) (z : Z),
      nth_error (data a) i = Some z ->
      (Forall (fun y => (z <= y)%Z) (data a) -> nth_error (data out) i = Some 0%Z) /\
      (Forall (fun y => (y <= z)%Z) (data a) -> nth_error (data out) i = Some 255%Z).
Proof.
  intros Hw Hr.
  pose proof (display_range_width_pos a None None arr lo hi Hw Hr) as D.
  destruct (full_range_windowing a arr lo hi Hw) as (-> & Hmin & Hmax).
  eexists. split.
  - unfold normalize_pixel_array. rewrite Hw. cbn [bind].
    rewrite rescale_proper by exact Hr. reflexivity.
  - intros i z Hz. cbn [astype_uint8 astype_float64 np_map data].
    rewrite !map_map, nth_error_map, Hz. cbn [option_map].
    pose proof (nth_error_In _ _ Hz) as Hin. split; intros B.
    + f_equal. rewrite <- to_uint8_zero. apply to_uint8_compat.
      apply rescale_sample_at_lo.
      now apply (np_min_of_least (data a) (astype_float64 (IntPixels a))).
    + f_equal. rewrite <- to_uint8_255. apply to_uint8_compat.
      apply rescale_sample_at_hi; [exact D|].
      now apply (np_max_of_greatest (data a) (astype_float64 (IntPixels a))).
Qed.

Lemma full_range_endpoints_witness :
  exists out : ndarray Z,
    normalize_pixel_array (IntPixels (mk_ndarray [3]%nat [-1000; 12; 3000]%Z)) None None
    = Ok out /\
    forall (i : nat) (z : Z),
      nth_error [-1000; 12; 3000]%Z i = Some z ->
      (Forall (fun y => (z <= y)%Z) [-1000; 12; 3000]%Z ->
       nth_error (data out) i = Some 0%Z) /\
      (Forall (fun y => (y <= z)%Z) [-1000; 12; 3000]%Z ->
       nth_error (data out) i = Some 255%Z).
Proof.
  apply (full_range_endpoints (mk_ndarray [3]%nat [-1000; 12; 3000]%Z)
           (astype_float64 (IntPixels (mk_ndarray [3]%nat [-1000; 12; 3000]%Z)))
           (of_int (-1000)) (of_int 3000)).
  - reflexivity.
  - vm_compute. reflexivity.
Defined.

Lemma uint8_table (k : Z) :
  (0 <= k <= 255)%Z -> to_uint8 (rescale_sample 0 255 (of_int k)) = k.
Proof.
  intros H.
  assert (T : forallb (fun z => Z.eqb (to_uint8 (rescale_sample 0 255 (of_int z))) z)
                (map Z.of_nat (seq 0 256)) = true) by (vm_compute; reflexivity).
  rewrite forallb_forall in T. apply Z.eqb_eq, T.
  rewrite <- (Z2Nat.id k) by lia. apply in_map, in_seq. lia.
Qed.

Lemma np_min_defined (a : ndarray Q) : data a <> [] -> exists m, np_min a = Ok m.
Proof. unfold np_min. destruct (data a); [congruence | eexists; reflexivity]. Qed.

Lemma np_max_defined (a : ndarray Q) : data a <> [] -> exists m, np_max a = Ok m.
Proof. unfold np_max. destruct (data a); [congruence | eexists; reflexivity]. Qed.

Lemma fixes_full_range_image (a : ndarray Z) :
  Forall (fun v => (0 <= v <= 255)%Z) (data a) ->
  In 0%Z (data a) -> In 255%Z (data a) ->
  normalize_pixel_array (IntPixels a) None None = Ok a.
Proof.
  intros Hr H0 H255. set (A := astype_float64 (IntPixels a)).
  assert (Hd : data A = map of_int (data a)) by reflexivity.
  assert (Hne : data A <> []).
  { rewrite Hd. destruct (data a); [destruct H0 | discriminate]. }
  destruct (np_min_defined A Hne) as [mn Hmin].
  destruct (np_max_defined A Hne) as [mx Hmax].
  rewrite Forall_forall in Hr.
  assert (Emin : mn == 0).
  { rewrite <- (np_min_of_least (data a) A mn 0%Z Hd Hmin H0).
    - vm_compute. reflexivity.
    - apply Forall_forall. intros y Hy. apply Hr in Hy. lia. }
  assert (Emax : mx == 255).
  { rewrite <- (np_max_of_greatest (data a) A mx 255%Z Hd Hmax H255).
    - vm_compute. reflexivity.
    - apply Forall_forall. intros y Hy. apply Hr in Hy. lia. }
  unfold normalize_pixel_array. fold A. cbn [windowing]. rewrite Hmin, Hmax. cbn [bind].
  rewrite rescale_proper by lra. f_equal.
  destruct a as [sh d]. unfold astype_uint8, np_map, A. cbn [astype_float64 np_map shape data] in *.
  f_equal. rewrite !map_map. rewrite <- (map_id d) at 2.
  apply map_ext_in. intros z Hz.
  rewrite <- (uint8_table z (Hr z Hz)) at 2.
  apply to_uint8_compat. now rewrite Emin, Emax.
Qed.

(** Without window, an 8-bit image that already spans 0 to 255 is returned
    unchanged. *)
Theorem normalize_fixes_full_range_image (a : ndarray Z) :
  Forall (fun v => (0 <= v <= 255)%Z) (data a) ->
  In 0%Z (data a) -> In 255%Z (data a) ->
  normalize_pixel_array (IntPixels a) None None = Ok a.
Proof. apply fixes_full_range_image. Qed.

Lemma normalize_fixes_full_range_image_witness :
  normalize_pixel_array (IntPixels (mk_ndarray [2; 3]%nat [255; 17; 0; 200; 0; 99]%Z))
    None None
  = Ok (mk_ndarray [2; 3]%nat [255; 17; 0; 200; 0; 99]%Z).
Proof.
  apply (normalize_fixes_full_range_image
           (mk_ndarray [2; 3]%nat [255; 17; 0; 200; 0; 99]%Z)).
  - cbn [data]. repeat constructor; lia.
  - cbn. tauto.
  - cbn. tauto.
Defined.

(** Without window the normaliser is idempotent on decoded images:
    normalising its own output changes nothing. *)
Theorem normalize_idempotent (a out : ndarray Z) :
  normalize_pixel_array (IntPixels a) None None = Ok out ->
  normalize_pixel_array (IntPixels out) None None = Ok out.
Proof.
  intros H. unfold normalize_pixel_array in H.
  destruct (windowing (astype_float64 (IntPixels a)) None None)
    as [[[arr lo] hi]|e] eqn:Hw; [|discriminate].
  cbn [bind] in H. injection H as <-.
  destruct (full_range_windowing a arr lo hi Hw) as (-> & Hmin & Hmax).
  destruct (np_min_spec _ _ Hmin) as [Imin _].
  destruct (np_max_spec _ _ Hmax) as [Imax _].
  destruct (Qlt_le_dec lo hi) as [L|L].
  - pose proof (display_range_width_pos a None None _ lo hi Hw L) as D.
    rewrite rescale_proper by exact L.
    cbn [astype_float64 np_map data] in Imin, Imax.
    apply fixes_full_range_image; cbn [astype_uint8 astype_float64 np_map data].
    + apply Forall_map, Forall_forall. intros x _. apply to_uint8_range.
    + rewrite map_map. apply in_map_iff. exists lo. split; [|exact Imin].
      rewrite <- to_uint8_zero. apply to_uint8_compat.
      apply rescale_sample_at_lo. reflexivity.
    + rewrite map_map. apply in_map_iff. exists hi. split; [|exact Imax].
      rewrite <- to_uint8_255. apply to_uint8_compat.
      apply rescale_sample_at_hi; [exact D | reflexivity].
  - rewrite rescale_degenerate by exact L.
    set (out := astype_uint8 (np_zeros_like (astype_float64 (IntPixels a)))).
    assert (Ho : data out = repeat 0%Z (List.length (data a))).
    { unfold out. cbn [astype_uint8 np_zeros_like astype_float64 np_map data].
      now rewrite !map_map, map_const. }
    assert (Hn : data a <> []).
    { intros E. cbn [astype_float64 np_map data] in Imin. now rewrite E in Imin. }
    set (B := astype_float64 (IntPixels out)).
    assert (HB : Forall (fun x => x == of_int 0) (data B)).
    { unfold B. cbn [astype_float64 np_map data]. rewrite Ho.
      apply Forall_map, Forall_forall. intros z Hz.
      apply repeat_spec in Hz. subst z. reflexivity. }
    assert (NB : data B <> []).
    { unfold B. cbn [astype_float64 np_map data]. rewrite Ho.
      destruct (data a); [congruence | discriminate]. }
    destruct (np_min_defined B NB) as [m1 H1]. destruct (np_max_defined B NB) as [m2 H2].
    rewrite (degenerate_range_zero (IntPixels out) None None B m1 m2).
    + f_equal. destruct out as [sh d]. cbn [pixels_shape samples shape data] in *.
      f_equal. now rewrite length_map, Ho, repeat_length.
    + fold B. cbn [windowing]. now rewrite H1, H2.
    + apply (all_close_min_max B (of_int 0)); assumption.
Qed.

Lemma normalize_idempotent_witness :
  normalize_pixel_array (IntPixels (mk_ndarray [1; 3]%nat [0; 127; 255]%Z)) None None
  = Ok (mk_ndarray [1; 3]%nat [0; 127; 255]%Z).
Proof.
  apply (normalize_idempotent (mk_ndarray [1; 3]%nat [0; 1; 2]%Z)).
  vm_compute. reflexivity.
Defined.

(** An empty array: with both window parameters the result is the empty
    array of the same shape; without them (or with only one) the reduction
    to the minimum raises ValueError. *)
Theorem normalize_empty_array (p : pixels) :
  samples p = [] ->
  (forall c w : Q,
     normalize_pixel_array p (Some c) (Some w) = Ok (mk_ndarray (pixels_shape p) [])) /\
  (forall wc ww : option Q,
     wc = None \/ ww = None -> normalize_pixel_array p wc ww = Raise ValueError).
Proof.
  intros He. destruct (astype_float64_data p) as (h & _ & Hd & Hs).
  rewrite He in Hd. cbn [map] in Hd. split.
  - intros c w. unfold normalize_pixel_array. cbn [windowing bind].
    unfold rescale, astype_uint8, np_zeros_like, np_clip, np_map.
    destruct (Qlt_le_dec _ _); cbn [shape data]; now rewrite Hd, Hs.
  - intros wc ww H. unfold normalize_pixel_array.
    assert (W : windowing (astype_float64 p) wc ww = Raise ValueError).
    { unfold windowing, np_min. rewrite Hd.
      destruct H as [-> | ->]; [reflexivity | destruct wc; reflexivity]. }
    now rewrite W.
Qed.

Lemma normalize_empty_array_witness :
  (forall c w : Q,
     normalize_pixel_array (IntPixels (mk_ndarray [0; 4]%nat [])) (Some c) (Some w)
     = Ok (mk_ndarray [0; 4]%nat [])) /\
  (forall wc ww : option Q,
     wc = None \/ ww = None ->
     normalize_pixel_array (IntPixels (mk_ndarray [0; 4]%nat [])) wc ww
     = Raise ValueError).
Proof.
  apply (normalize_empty_array (IntPixels (mk_ndarray [0; 4]%nat []))). reflexivity.
Defined.

(** On a decoded array with a proper display range the divisor of the
    rescaling, [img_max - img_min] as computed in float64, is positive: the
    division never meets zero. *)
Theorem rescale_divisor_positive
    (a : ndarray Z) (wc ww : option Q) (arr : ndarray Q) (lo hi : Q) :
  windowing (astype_float64 (IntPixels a)) wc ww = Ok (arr, lo, hi) ->
  lo < hi -> 0 < fsub hi lo.
Proof. apply display_range_width_pos. Qed.

Lemma rescale_divisor_positive_witness :
  0 < fsub (fadd (1 # 3) (floordiv2 3)) (fsub (1 # 3) (floordiv2 3)).
Proof.
  apply (rescale_divisor_positive (mk_ndarray [1]%nat [5]%Z) (Some (1 # 3)) (Some 3)
           (np_clip (astype_float64 (IntPixels (mk_ndarray [1]%nat [5]%Z)))
              (fsub (1 # 3) (floordiv2 3)) (fadd (1 # 3) (floordiv2 3)))).
  - reflexivity.
  - vm_compute. reflexivity.
Defined.

Lemma rescale_sample_shift (lo hi x lo' hi' x' : Q) :
  x' - lo' == x - lo -> hi' - lo' == hi - lo ->
  rescale_sample lo' hi' x' == rescale_sample lo hi x.
Proof.
  intros E1 E2. unfold rescale_sample, fmul, fdiv, fsub.
  apply fl_compat. rewrite (fl_compat _ _ E1), (fl_compat _ _ E2). reflexivity.
Qed.

(** Without window the output does not change when the same integer is
    added to every sample (samples of at most 53 bits before and after). *)
Theorem full_range_shift_invariant (a : ndarray Z) (k : Z) :
  Forall (fun z => (Z.abs z <= 2 ^ 53 /\ Z.abs (z + k) <= 2 ^ 53)%Z) (data a) ->
  normalize_pixel_array (IntPixels (np_map (fun z => (z + k)%Z) a)) None None
  = normalize_pixel_array (IntPixels a) None None.
Proof.
  intros Hb. rewrite Forall_forall in Hb.
  set (A := astype_float64 (IntPixels a)).
  set (A' := astype_float64 (IntPixels (np_map (fun z => (z + k)%Z) a))).
  assert (Hd : data A = map of_int (data a)) by reflexivity.
  assert (Hd' : data A' = map of_int (map (fun z => (z + k)%Z) (data a))) by reflexivity.
  assert (Hs : shape A' = shape A) by reflexivity.
  assert (Ex : forall z, In z (data a) -> of_int (z + k) == of_int z + inject_Z k).
  { intros z Hz. destruct (Hb z Hz) as [B1 B2].
    rewrite !of_int_exact by assumption. rewrite inject_Z_plus. reflexivity. }
  unfold normalize_pixel_array. fold A A'.
  destruct (data a) as [|z0 zs] eqn:Ea.
  { assert (W : forall B : ndarray Q, data B = [] -> windowing B None None = Raise ValueError)
      by (intros B HB; unfold windowing, np_min; now rewrite HB).
    rewrite (W A), (W A'); [reflexivity | exact Hd' | exact Hd]. }
  assert (NA : data A <> []) by (rewrite Hd; discriminate).
  assert (NA' : data A' <> []) by (rewrite Hd'; discriminate).
  destruct (np_min_defined A NA) as [mn Hmin]. destruct (np_max_defined A NA) as [mx Hmax].
  destruct (np_min_defined A' NA') as [mn' Hmin']. destruct (np_max_defined A' NA') as [mx' Hmax'].
  destruct (np_min_spec _ _ Hmin) as [I1 L1]. destruct (np_max_spec _ _ Hmax) as [I2 L2].
  destruct (np_min_spec _ _ Hmin') as [I1' L1']. destruct (np_max_spec _ _ Hmax') as [I2' L2'].
  rewrite Hd in I1, L1, I2, L2. rewrite Hd' in I1', L1', I2', L2'.
  rewrite map_map in I1', L1', I2', L2'.
  rewrite Forall_map in L1, L2, L1', L2'. rewrite Forall_forall in L1, L2, L1', L2'.
  apply in_map_iff in I1, I2, I1', I2'.
  destruct I1 as (z1 & E1 & Z1). destruct I2 as (z2 & E2 & Z2).
  destruct I1' as (z1' & E1' & Z1'). destruct I2' as (z2' & E2' & Z2').
  assert (Emin : mn' == mn + inject_Z k).
  { apply Qle_antisym.
    - rewrite <- E1, <- (Ex z1 Z1). now apply L1'.
    - rewrite <- E1', (Ex z1' Z1'). pose proof (L1 z1' Z1'). lra. }
  assert (Emax : mx' == mx + inject_Z k).
  { apply Qle_antisym.
    - rewrite <- E2', (Ex z2' Z2'). pose proof (L2 z2' Z2'). lra.
    - rewrite <- E2, <- (Ex z2 Z2). now apply L2'. }
  cbn [windowing]. rewrite Hmin, Hmax, Hmin', Hmax'. cbn [bind]. f_equal.
  destruct (Qlt_le_dec mn mx) as [L|L].
  - rewrite !rescale_proper by lra.
    unfold astype_uint8, np_map. rewrite Hs. cbn [shape data]. f_equal.
    rewrite Hd, Hd', !map_map. apply map_ext_in. intros z Hz.
    apply to_uint8_compat, rescale_sample_shift.
    + rewrite (Ex z Hz), Emin. ring.
    + rewrite Emin, Emax. ring.
  - rewrite !rescale_degenerate by lra.
    unfold astype_uint8, np_zeros_like, np_map. rewrite Hs. cbn [shape data]. f_equal.
    now rewrite Hd, Hd', !map_map.
Qed.

Lemma full_range_shift_invariant_witness :
  normalize_pixel_array
    (IntPixels (np_map (fun z => (z + -1024)%Z) (mk_ndarray [1; 3]%nat [1024; 1100; 4000]%Z)))
    None None
  = normalize_pixel_array (IntPixels (mk_ndarray [1; 3]%nat [1024; 1100; 4000]%Z))
      None None.
Proof.
  apply (full_range_shift_invariant (mk_ndarray [1; 3]%nat [1024; 1100; 4000]%Z) (-1024)).
  cbn [data]. repeat constructor; cbn; lia.
Defined.

(** ** More on the orchestrator *)

Lemma dtype_facts (dt : dtype) :
  (dtype_min dt <= 0 <= dtype_max dt)%Z /\
  (dtype_max dt - dtype_min dt = 2 ^ dtype_bits dt - 1)%Z /\
  (dtype_signed dt = false -> dtype_min dt = 0%Z).
Proof. destruct dt; cbn; repeat split; try lia; discriminate. Qed.

Lemma wrap_in_dtype (dt : dtype) (z : Z) : in_dtype dt z -> wrap dt z = z.
Proof.
  intros [L U]. destruct (dtype_facts dt) as (_ & W & _). unfold wrap.
  rewrite Z.mod_small; lia.
Qed.

(** When the differences fit, the inversion is max - p for every sample. *)
Lemma invert_fits (dt : dtype) (a : ndarray Z) :
  inversion_fits dt a -> data a <> [] ->
  exists m : Z,
    In m (data a) /\ Forall (fun p => (p <= m)%Z) (data a) /\
    Forall (fun p => in_dtype dt (m - p)) (data a) /\
    invert dt a = Ok (np_map (fun p => (m - p)%Z) a).
Proof.
  intros [Hr Hs] Hne. unfold invert.
  destruct (data a) as [|x xs] eqn:Ea; [congruence|].
  destruct (Zmax_list_spec xs x) as [Hin Hall].
  set (m := Zmax_list x xs) in *. rewrite <- Ea in *.
  exists m. split; [exact Hin|]. split; [exact Hall|].
  rewrite Forall_forall in Hr, Hall.
  destruct (dtype_facts dt) as ((L0 & U0) & _ & Hu).
  assert (F : forall p, In p (data a) -> in_dtype dt (m - p)).
  { intros p Hp. pose proof (Hall p Hp). unfold in_dtype. split; [lia|].
    destruct Hs as [Hs|Hs].
    - specialize (Hu Hs). destruct (Hr p Hp) as [Lp _]. destruct (Hr m Hin) as [_ Um]. lia.
    - now apply Hs. }
  split; [now apply Forall_forall|].
  unfold np_map. f_equal. f_equal. apply map_ext_in. intros p Hp.
  apply wrap_in_dtype. now apply F.
Qed.

(** For a MONOCHROME1 dataset whose differences max - p fit the dtype of the
    array (every unsigned image), the array handed to the normaliser is
    max - p for every sample p of the decoded array, max being its largest
    sample; the window parameters are read and applied afterwards. *)
Theorem monochrome1_inverts_when_fits
    (dicom : dataset) (apply_windowing : bool) (a : ndarray Z) :
  pixel_data dicom = Some a ->
  PhotometricInterpretation dicom = Some "MONOCHROME1"%string ->
  inversion_fits (pixel_dtype dicom) a ->
  data a <> [] ->
  exists m : Z,
    In m (data a) /\ Forall (fun p => (p <= m)%Z) (data a) /\
    normalizer_call dicom apply_windowing
    = ('(window_center, window_width) <- window_parameters dicom apply_windowing ;;
       Ok (np_map (fun p => (m - p)%Z) a, window_center, window_width)).
Proof.
  intros Hp Hm Hf Hne.
  destruct (invert_fits _ _ Hf Hne) as (m & Hin & Hall & _ & Hi).
  exists m. split; [exact Hin|]. split; [exact Hall|].
  unfold normalizer_call, pixel_array, photometric. rewrite Hp. cbn [bind].
  rewrite Hm, String.eqb_refl, Hi. reflexivity.
Qed.

Lemma monochrome1_inverts_when_fits_witness :
  exists m : Z,
    In m [3; 9; 4]%Z /\ Forall (fun p => (p <= m)%Z) [3; 9; 4]%Z /\
    normalizer_call
      (mk_dataset (Some (mk_ndarray [1; 3]%nat [3; 9; 4]%Z))
         (Some "MONOCHROME1"%string) (Some (Scalar 5)) (Some (Scalar 4)) uint16) true
    = Ok (np_map (fun p => (m - p)%Z) (mk_ndarray [1; 3]%nat [3; 9; 4]%Z),
          Some 5, Some 4).
Proof.
  apply (monochrome1_inverts_when_fits
           (mk_dataset (Some (mk_ndarray [1; 3]%nat [3; 9; 4]%Z))
              (Some "MONOCHROME1"%string) (Some (Scalar 5)) (Some (Scalar 4)) uint16)
           true (mk_ndarray [1; 3]%nat [3; 9; 4]%Z)).
  - reflexivity.
  - reflexivity.
  - split; [|now left]. cbn [data]. repeat constructor; unfold in_dtype; cbn; lia.
  - discriminate.
Defined.

(** When the differences fit the dtype, inverting keeps the shape, yields
    non-negative samples with least sample 0, and inverting again gives back
    the original up to its offset: every sample minus the least original
    sample. *)
Theorem invert_twice (dt : dtype) (a b : ndarray Z) :
  inversion_fits dt a ->
  invert dt a = Ok b ->
  shape b = shape a /\
  Forall (fun q => (0 <= q)%Z) (data b) /\ In 0%Z (data b) /\
  exists mn : Z,
    In mn (data a) /\ Forall (fun p => (mn <= p)%Z) (data a) /\
    invert dt b = Ok (np_map (fun p => (p - mn)%Z) a).
Proof.
  intros Hf Hi.
  assert (Hne : data a <> []).
  { intros E. unfold invert in Hi. now rewrite E in Hi. }
  destruct (invert_fits _ _ Hf Hne) as (m & Hin & Hall & Hfit & Hi').
  rewrite Hi' in Hi. injection Hi as <-. cbn [np_map shape data].
  rewrite Forall_forall in Hall, Hfit.
  split; [reflexivity|]. split; [|split].
  - apply Forall_map, Forall_forall. intros p Hp. apply Hall in Hp. lia.
  - apply in_map_iff. exists m. split; [lia | exact Hin].
  - set (b := np_map (fun p => (m - p)%Z) a).
    assert (Hb : data b = map (fun p => (m - p)%Z) (data a)) by reflexivity.
    assert (Hfb : inversion_fits dt b).
    { split.
      - rewrite Hb. apply Forall_map, Forall_forall. exact Hfit.
      - right. intros x y Hx Hy. rewrite Hb in Hx, Hy.
        apply in_map_iff in Hx, Hy.
        destruct Hx as (p & <- & Hp). destruct Hy as (q & <- & Hq).
        pose proof (Hall q Hq). destruct (Hfit p Hp) as [_ U]. lia. }
    assert (Hnb : data b <> []).
    { rewrite Hb. destruct (data a); [congruence | discriminate]. }
    destruct (invert_fits _ _ Hfb Hnb) as (M & Min & Mall & _ & Hib).
    rewrite Hb in Min, Mall. apply in_map_iff in Min.
    destruct Min as (z0 & EM & Hz0).
    rewrite Forall_map, Forall_forall in Mall.
    exists z0. split; [exact Hz0|]. split.
    + apply Forall_forall. intros p Hp. apply Mall in Hp. lia.
    + fold b. rewrite Hib. unfold b, np_map. cbn [shape data]. f_equal. f_equal.
      rewrite map_map. apply map_ext. intros p. lia.
Qed.

Lemma invert_twice_witness :
  shape (mk_ndarray [1; 3]%nat [7; 0; 4]%Z) = [1; 3]%nat /\
  Forall (fun q => (0 <= q)%Z) [7; 0; 4]%Z /\ In 0%Z [7; 0; 4]%Z /\
  exists mn : Z,
    In mn [3; 10; 6]%Z /\ Forall (fun p => (mn <= p)%Z) [3; 10; 6]%Z /\
    invert uint16 (mk_ndarray [1; 3]%nat [7; 0; 4]%Z)
    = Ok (np_map (fun p => (p - mn)%Z) (mk_ndarray [1; 3]%nat [3; 10; 6]%Z)).
Proof.
  apply (invert_twice uint16 (mk_ndarray [1; 3]%nat [3; 10; 6]%Z)
           (mk_ndarray [1; 3]%nat [7; 0; 4]%Z)).
  - split; [|now left]. cbn [data]. repeat constructor; unfold in_dtype; cbn; lia.
  - reflexivity.
Defined.

(** The normaliser never reverses the order of two samples, whatever the
    window (degenerate ranges included). *)
Lemma normalize_monotone_any (p : pixels) (wc ww : option Q) (out : ndarray Z) :
  normalize_pixel_array p wc ww = Ok out ->
  forall (i j : nat) (x y : Q) (u v : Z),
    nth_error (samples p) i = Some x -> nth_error (samples p) j = Some y ->
    nth_error (data out) i = Some u -> nth_error (data out) j = Some v ->
    x <= y -> (u <= v)%Z.
Proof.
  intros H. pose proof H as H'. unfold normalize_pixel_array in H'.
  destruct (windowing (astype_float64 p) wc ww) as [[[arr lo] hi]|e] eqn:Hw;
    [|discriminate]. clear H'.
  destruct (Qlt_le_dec lo hi) as [L|L].
  - destruct (normalize_elements p wc ww arr lo hi Hw L) as (g & Hg & Hin & Hn).
    rewrite Hn in H. injection H as <-. cbn [data].
    intros i j x y u v Hx Hy Hu Hv Hxy.
    rewrite nth_error_map, Hx in Hu. rewrite nth_error_map, Hy in Hv.
    cbn in Hu, Hv. injection Hu as <-. injection Hv as <-.
    rewrite Forall_forall in Hin.
    pose proof (Hin x (nth_error_In _ _ Hx)) as Bx.
    pose proof (Hin y (nth_error_In _ _ Hy)) as By.
    pose proof (rescale_sample_range lo hi (g x) Bx).
    pose proof (rescale_sample_range lo hi (g y) By).
    apply to_uint8_mono; try tauto.
    apply rescale_sample_mono; [lra | now apply Hg].
  - rewrite (degenerate_range_zero p wc ww arr lo hi Hw L) in H.
    injection H as <-. cbn [data].
    intros i j x y u v _ _ Hu Hv _.
    apply nth_error_In, repeat_spec in Hu. apply nth_error_In, repeat_spec in Hv. lia.
Qed.

Lemma normalize_returns (p : pixels) (wc ww : option Q) :
  samples p <> [] -> exists out : ndarray Z, normalize_pixel_array p wc ww = Ok out.
Proof.
  intros Hne. destruct (astype_float64_data p) as (h & _ & Hd & _).
  assert (N : data (astype_float64 p) <> []).
  { rewrite Hd. destruct (samples p); [congruence | discriminate]. }
  destruct (np_min_defined _ N) as [mn Hmin]. destruct (np_max_defined _ N) as [mx Hmax].
  unfold normalize_pixel_array, windowing.
  destruct wc as [c|]; [destruct ww as [w|]|]; rewrite ?Hmin, ?Hmax; cbn [bind];
    eexists; reflexivity.
Qed.

(** MONOCHROME1, when the differences max - p fit the dtype of the array
    (every unsigned image): the inverted image is normalised, with or
    without window, and the display order is reversed: a larger stored
    sample is never displayed brighter. *)
Theorem monochrome1_reverses_order
    (dt : dtype) (a : ndarray Z) (wc ww : option Q) :
  inversion_fits dt a ->
  data a <> [] ->
  exists ia out : ndarray Z,
    invert dt a = Ok ia /\
    normalize_pixel_array (IntPixels ia) wc ww = Ok out /\
    forall (i j : nat) (x y u v : Z),
      nth_error (data a) i = Some x -> nth_error (data a) j = Some y ->
      nth_error (data out) i = Some u -> nth_error (data out) j = Some v ->
      (x <= y)%Z -> (v <= u)%Z.
Proof.
  intros Hf Hne.
  destruct (invert_fits _ _ Hf Hne) as (m & _ & _ & _ & Hi).
  set (ia := np_map (fun p => (m - p)%Z) a) in *.
  assert (Hs : samples (IntPixels ia) <> []).
  { cbn [samples ia np_map data]. destruct (data a); [congruence | discriminate]. }
  destruct (normalize_returns (IntPixels ia) wc ww Hs) as [out Hn].
  exists ia, out. split; [exact Hi|]. split; [exact Hn|].
  intros i j x y u v Hx Hy Hu Hv Hxy.
  apply (normalize_monotone_any _ _ _ _ Hn j i
           (inject_Z (m - y)) (inject_Z (m - x)) v u); try assumption.
  - cbn [samples ia np_map data]. now rewrite map_map, nth_error_map, Hy.
  - cbn [samples ia np_map data]. now rewrite map_map, nth_error_map, Hx.
  - rewrite <- Zle_Qle. lia.
Qed.

Lemma monochrome1_reverses_order_witness :
  exists ia out : ndarray Z,
    invert uint16 (mk_ndarray [1; 3]%nat [0; 10; 100]%Z) = Ok ia /\
    normalize_pixel_array (IntPixels ia) None None = Ok out /\
    forall (i j : nat) (x y u v : Z),
      nth_error [0; 10; 100]%Z i = Some x -> nth_error [0; 10; 100]%Z j = Some y ->
      nth_error (data out) i = Some u -> nth_error (data out) j = Some v ->
      (x <= y)%Z -> (v <= u)%Z.
Proof.
  apply (monochrome1_reverses_order uint16 (mk_ndarray [1; 3]%nat [0; 10; 100]%Z)
           None None).
  - split; [|now left]. cbn [data]. repeat constructor; unfold in_dtype; cbn; lia.
  - discriminate.
Defined.

Local Open Scope string_scope.

Lemma convert_body_outcome (os : platform) (dicom_path : string)
    (output_path : option string) (apply_windowing : bool)
    (p : string) (evs : list event) :
  convert_body os dicom_path output_path apply_windowing = Ok (p, evs) ->
  exists (dicom : dataset) (a : ndarray Z) (wc ww : option Q)
         (n : ndarray Z) (im : image),
    dcmread os dicom_path = Ok dicom /\
    normalizer_call dicom apply_windowing = Ok (a, wc, ww) /\
    normalize_pixel_array (IntPixels a) wc ww = Ok n /\
    Image_fromarray os n
      (if Nat.eqb (List.length (shape n)) 3 then None else Some "L") = Ok im /\
    Image_save os im p = Ok tt /\
    p = match output_path with
        | Some q => q
        | None => default_output_path os dicom_path
        end /\
    evs = [Saved im p;
           Converted (os_path_basename os dicom_path) (os_path_basename os p)].
Proof.
  unfold convert_body. intros H.
  destruct (dcmread os dicom_path) as [dicom|] eqn:E1; [|discriminate]. cbn [bind] in H.
  destruct (normalizer_call dicom apply_windowing) as [[[a wc] ww]|] eqn:E2;
    [|discriminate]. cbn [bind] in H.
  destruct (normalize_pixel_array (IntPixels a) wc ww) as [n|] eqn:E3;
    [|discriminate]. cbn [bind] in H.
  destruct (if Nat.eqb (List.length (shape n)) 3
            then Image_fromarray os n None
            else Image_fromarray os n (Some "L")) as [im|] eqn:E4;
    [|discriminate]. cbn [bind] in H.
  destruct (Image_save os im _) as [[]|] eqn:E5; [|discriminate]. cbn [bind] in H.
  injection H as <- <-.
  exists dicom, a, wc, ww, n, im. repeat split; try assumption; try reflexivity.
  destruct (Nat.eqb (List.length (shape n)) 3); exact E4.
Qed.


Lemma normalize_output_facts (p : pixels) (wc ww : option Q) (out : ndarray Z) :
  normalize_pixel_array p wc ww = Ok out ->
  shape out = pixels_shape p /\
  List.length (data out) = List.length (samples p) /\
  Forall (fun v => (0 <= v <= 255)%Z) (data out).
Proof.
  intros H. unfold normalize_pixel_array in H.
  destruct (windowing (astype_float64 p) wc ww) as [[[arr lo] hi]|e] eqn:Hw;
    [|discriminate].
  cbn [bind] in H. injection H as <-.
  destruct (astype_float64_data p) as (h & _ & Hd & Hs).
  destruct (windowing_data _ _ _ _ _ _ Hw) as (g & _ & _ & Hda & Hsa).
  destruct (rescale_shape arr lo hi) as [S L].
  unfold astype_uint8, np_map. cbn [shape data]. split; [|split].
  - now rewrite S, Hsa, Hs.
  - now rewrite length_map, L, Hda, Hd, !length_map.
  - apply Forall_map, Forall_forall. intros x _. apply to_uint8_range.
Qed.

Lemma photometric_shape (dicom : dataset) (a a' : ndarray Z) :
  photometric dicom a = Ok a' ->
  shape a' = shape a /\ List.length (data a') = List.length (data a).
Proof.
  unfold photometric, invert. intros H.
  destruct (PhotometricInterpretation dicom) as [pi|]; [|injection H as <-; auto].
  destruct (pi =? "MONOCHROME1"); [|injection H as <-; auto].
  destruct (data a) eqn:E; [discriminate|]. injection H as <-.
  cbn [np_map shape data]. rewrite length_map, E. auto.
Qed.

(** The image handed to the encoder has the shape of the decoded pixel
    array and samples between 0 and 255; it is built without mode (RGB) when
    the decoded array has three dimensions and with mode "L" otherwise. *)
Theorem saved_image_shape_and_mode (os : platform) (dicom_path : string)
    (output_path : option string) (apply_windowing : bool)
    (p : string) (evs : list event) (dicom : dataset) (a : ndarray Z) :
  convert_body os dicom_path output_path apply_windowing = Ok (p, evs) ->
  dcmread os dicom_path = Ok dicom ->
  pixel_data dicom = Some a ->
  exists (n : ndarray Z) (im : image),
    Image_fromarray os n
      (if Nat.eqb (List.length (shape a)) 3 then None else Some "L") = Ok im /\
    shape n = shape a /\
    List.length (data n) = List.length (data a) /\
    Forall (fun v => (0 <= v <= 255)%Z) (data n) /\
    In (Saved im p) evs.
Proof.
  intros H Hd Hp.
  destruct (convert_body_outcome _ _ _ _ _ _ H)
    as (dicom' & a' & wc & ww & n & im & E1 & E2 & E3 & E4 & _ & _ & E7).
  rewrite Hd in E1. injection E1 as <-.
  unfold normalizer_call, pixel_array in E2. rewrite Hp in E2. cbn [bind] in E2.
  destruct (photometric dicom a) as [a''|] eqn:Ph; [|discriminate]. cbn [bind] in E2.
  destruct (window_parameters dicom apply_windowing) as [[wc' ww']|]; [|discriminate].
  cbn [bind] in E2. injection E2 as <- <- <-.
  destruct (photometric_shape _ _ _ Ph) as [S L].
  destruct (normalize_output_facts _ _ _ _ E3) as (S' & L' & R).
  cbn [pixels_shape samples] in S', L'. rewrite length_map in L'.
  exists n, im. rewrite <- S, <- S'. split; [exact E4|]. split; [reflexivity|].
  split; [congruence|]. split; [exact R|]. rewrite E7. now left.
Qed.

Lemma saved_image_shape_and_mode_witness :
  exists (n : ndarray Z) (im : image),
    Image_fromarray example_platform n
      (if Nat.eqb (List.length [2; 2]%nat) 3 then None else Some "L") = Ok im /\
    shape n = [2; 2]%nat /\
    List.length (data n) = 4%nat /\
    Forall (fun v => (0 <= v <= 255)%Z) (data n) /\
    In (Saved im "out.png")
      (snd (convert_dicom_to_png example_platform "scans/a.dcm" (Some "out.png") false)).
Proof.
  apply (saved_image_shape_and_mode example_platform "scans/a.dcm" (Some "out.png") false
           "out.png" _ example_dataset (mk_ndarray [2; 2]%nat [0; 128; 128; 255]%Z)).
  - vm_compute. reflexivity.
  - reflexivity.
  - reflexivity.
Defined.

(** What makes the extraction fail, each time as one error line and no
    result: a dataset without pixel data (AttributeError); a MONOCHROME1
    dataset with an empty pixel array (ValueError, window or not); with
    windowing on and both attributes present, an empty multi-valued centre
    or width (IndexError). *)
Theorem extraction_failures (os : platform) (dicom_path : string)
    (output_path : option string) (dicom : dataset) :
  dcmread os dicom_path = Ok dicom ->
  (pixel_data dicom = None ->
   forall apply_windowing,
     convert_dicom_to_png os dicom_path output_path apply_windowing
     = (None, [ErrorConverting dicom_path AttributeError])) /\
  (forall a, pixel_data dicom = Some a -> data a = [] ->
   PhotometricInterpretation dicom = Some "MONOCHROME1" ->
   forall apply_windowing,
     convert_dicom_to_png os dicom_path output_path apply_windowing
     = (None, [ErrorConverting dicom_path ValueError])) /\
  (forall a a' cv wv, pixel_data dicom = Some a -> photometric dicom a = Ok a' ->
   WindowCenter dicom = Some cv -> WindowWidth dicom = Some wv ->
   cv = MultiValue [] \/ wv = MultiValue [] ->
   convert_dicom_to_png os dicom_path output_path true
   = (None, [ErrorConverting dicom_path IndexError])).
Proof.
  intros Hd. split; [|split].
  - intros Hp aw. apply convert_of_raise.
    unfold convert_body, normalizer_call, pixel_array. rewrite Hd. cbn [bind].
    now rewrite Hp.
  - intros a Hp He Hm aw. apply convert_of_raise.
    unfold convert_body, normalizer_call, pixel_array, photometric, invert.
    rewrite Hd. cbn [bind]. rewrite Hp. cbn [bind]. now rewrite Hm, String.eqb_refl, He.
  - intros a a' cv wv Hp Ph Hc Hw Hempty. apply convert_of_raise.
    unfold convert_body, normalizer_call, pixel_array, window_parameters.
    rewrite Hd. cbn [bind]. rewrite Hp. cbn [bind]. rewrite Ph. cbn [bind].
    rewrite Hc, Hw.
    destruct Hempty as [-> | ->]; [reflexivity|].
    destruct cv as [x|[|x xs]]; reflexivity.
Qed.

Lemma extraction_failures_witness :
  convert_dicom_to_png
    (example_reader
       (mk_dataset (Some (mk_ndarray [1; 2]%nat [0; 100]%Z)) (Some "MONOCHROME2")
          (Some (Scalar 50)) (Some (MultiValue [])) uint8))
    "scans/a.dcm" None true
  = (None, [ErrorConverting "scans/a.dcm" IndexError]).
Proof.
  destruct (extraction_failures
              (example_reader
                 (mk_dataset (Some (mk_ndarray [1; 2]%nat [0; 100]%Z))
                    (Some "MONOCHROME2") (Some (Scalar 50)) (Some (MultiValue []))
                    uint8))
              "scans/a.dcm" None
              (mk_dataset (Some (mk_ndarray [1; 2]%nat [0; 100]%Z))
                 (Some "MONOCHROME2") (Some (Scalar 50)) (Some (MultiValue [])) uint8)
              eq_refl) as (_ & _ & H).
  apply (H (mk_ndarray [1; 2]%nat [0; 100]%Z) (mk_ndarray [1; 2]%nat [0; 100]%Z)
           (Scalar 50) (MultiValue [])).
  - reflexivity.
  - reflexivity.
  - reflexivity.
  - reflexivity.
  - right. reflexivity.
Defined.

(** With windowing off, or with the centre or the width absent, the window
    attributes are not read: the normaliser is called as for the dataset
    without them, even when the attribute that is present is an empty
    sequence. *)
Theorem window_attributes_ignored (dicom : dataset) (apply_windowing : bool) :
  apply_windowing = false \/ WindowCenter dicom = None \/ WindowWidth dicom = None ->
  window_parameters dicom apply_windowing = Ok (None, None) /\
  normalizer_call dicom apply_windowing
  = normalizer_call
      (mk_dataset (pixel_data dicom) (PhotometricInterpretation dicom) None None
         (pixel_dtype dicom)) true.
Proof.
  intros H.
  assert (W : window_parameters dicom apply_windowing = Ok (None, None)).
  { unfold window_parameters. destruct H as [-> | [-> | ->]]; [reflexivity | |].
    - now destruct apply_windowing.
    - destruct apply_windowing; [|reflexivity]. now destruct (WindowCenter dicom). }
  split; [exact W|]. unfold normalizer_call. rewrite W. reflexivity.
Qed.

Lemma window_attributes_ignored_witness :
  window_parameters
    (mk_dataset (Some (mk_ndarray [1; 2]%nat [0; 100]%Z)) (Some "MONOCHROME2")
       (Some (MultiValue [])) (Some (Scalar 80)) uint8) false = Ok (None, None) /\
  normalizer_call
    (mk_dataset (Some (mk_ndarray [1; 2]%nat [0; 100]%Z)) (Some "MONOCHROME2")
       (Some (MultiValue [])) (Some (Scalar 80)) uint8) false
  = normalizer_call
      (mk_dataset (Some (mk_ndarray [1; 2]%nat [0; 100]%Z)) (Some "MONOCHROME2")
         None None uint8) true.
Proof.
  apply (window_attributes_ignored
           (mk_dataset (Some (mk_ndarray [1; 2]%nat [0; 100]%Z)) (Some "MONOCHROME2")
              (Some (MultiValue [])) (Some (Scalar 80)) uint8) false).
  left. reflexivity.
Defined.

(** ** The batch loop and the command line *)

Lemma convert_returns_explicit_path (os : platform) (dicom_path q p : string)
    (apply_windowing : bool) :
  fst (convert_dicom_to_png os dicom_path (Some q) apply_windowing) = Some p -> p = q.
Proof.
  unfold convert_dicom_to_png.
  destruct (convert_body os dicom_path (Some q) apply_windowing) as [[p' evs]|e] eqn:E;
    [|discriminate].
  cbn [fst]. intros [= ->].
  destruct (convert_body_outcome _ _ _ _ _ _ E)
    as (_ & _ & _ & _ & _ & _ & _ & _ & _ & _ & _ & Hp & _).
  exact Hp.
Qed.

Lemma convert_each_results (os : platform) (output_dir : option string)
    (dicom_files converted_files : list string) :
  exists new : list string,
    fst (convert_each os output_dir dicom_files converted_files)
    = (converted_files ++ new)%list /\
    (List.length new <= List.length dicom_files)%nat /\
    Forall (fun p =>
              p <> "" /\
              exists (f : string) (output_path : option string),
                In f dicom_files /\
                fst (convert_dicom_to_png os f output_path true) = Some p /\
                (forall d, output_dir = Some d -> d <> "" ->
                   output_path
                   = Some (os_path_join os d
                             (fst (os_path_splitext os (os_path_basename os f))
                              ++ ".png"))))
           new.
Proof.
  revert converted_files. induction dicom_files as [|f rest IH]; intros acc.
  - exists []. cbn. rewrite app_nil_r. auto.
  - cbn [convert_each].
    set (outp := if truthy output_dir then _ else None).
    assert (Hout : forall d, output_dir = Some d -> d <> "" ->
              outp = Some (os_path_join os d
                             (fst (os_path_splitext os (os_path_basename os f))
                              ++ ".png"))).
    { intros d -> Hd. unfold outp. cbn [truthy].
      apply String.eqb_neq in Hd. now rewrite Hd. }
    destruct (convert_dicom_to_png os f outp true) as [res out] eqn:Ec.
    set (acc' := if truthy res then _ else acc).
    destruct (IH acc') as (new & E & L & F).
    destruct (convert_each os output_dir rest acc') as [final out'].
    cbn [fst] in *.
    assert (Fw : Forall (fun p =>
              p <> "" /\
              exists (f0 : string) (output_path : option string),
                In f0 (f :: rest) /\
                fst (convert_dicom_to_png os f0 output_path true) = Some p /\
                (forall d, output_dir = Some d -> d <> "" ->
                   output_path
                   = Some (os_path_join os d
                             (fst (os_path_splitext os (os_path_basename os f0))
                              ++ ".png"))))
           new).
    { eapply Forall_impl; [|exact F]. cbn beta.
      intros p (Hp & f0 & o & Hin & Hc & Ho). split; [exact Hp|].
      exists f0, o. split; [now right | auto]. }
    destruct res as [p|]; cbn [truthy] in acc'.
    + destruct (String.eqb_spec p "") as [Ep|Np]; cbn [negb] in acc'.
      * exists new. subst acc'. split; [exact E|]. split; [cbn; lia | exact Fw].
      * exists (p :: new). subst acc'. rewrite <- app_assoc in E.
        split; [exact E|]. split; [cbn; lia|].
        constructor; [|exact Fw]. split; [exact Np|].
        exists f, outp. split; [now left|]. split; [now rewrite Ec | exact Hout].
    + exists new. subst acc'. split; [exact E|]. split; [cbn; lia | exact Fw].
Qed.

Lemma batch_loop_results (os : platform) (input_path : string)
    (output_dir : option string) (pattern : string)
    (res : list string) (evs : list event) :
  batch_convert_dicom_to_png os input_path output_dir pattern = (Ok res, evs) ->
  let dicom_files := glob_glob os (os_path_join os input_path pattern) in
  (List.length res <= List.length dicom_files)%nat /\
  Forall (fun p =>
            p <> "" /\
            exists (f : string) (output_path : option string),
              In f dicom_files /\
              fst (convert_dicom_to_png os f output_path true) = Some p /\
              (forall d, output_dir = Some d -> d <> "" ->
                 p = os_path_join os d
                       (fst (os_path_splitext os (os_path_basename os f)) ++ ".png")))
         res.
Proof.
  intros H files. unfold batch_convert_dicom_to_png in H. fold files in H.
  destruct files as [|f rest] eqn:Ef.
  { injection H as <- _. cbn. split; [lia | constructor]. }
  rewrite <- Ef in *.
  destruct (if truthy output_dir then _ else Ok tt) as [[]|e]; [|discriminate].
  destruct (convert_each_results os output_dir files []) as (new & E & L & F).
  destruct (convert_each os output_dir files []) as [final out].
  cbn [fst app] in E. injection H as <- _. subst final.
  split; [exact L|].
  eapply Forall_impl; [|exact F]. cbn beta.
  intros p (Np & f0 & o & Hin & Hc & Ho). split; [exact Np|].
  exists f0, o. split; [exact Hin|]. split; [exact Hc|].
  intros d Hd Nd. specialize (Ho d Hd Nd). subst o.
  now apply convert_returns_explicit_path in Hc.
Qed.

(** A batch that completes returns at most one path per matched file; every
    returned path is the non-empty result of converting one of the matched
    files; with an output directory it is that directory joined with the
    file's base name and ".png". *)
Theorem batch_results (os : platform) (input_path : string)
    (output_dir : option string) (pattern : string)
    (res : list string) (evs : list event) :
  batch_convert_dicom_to_png os input_path output_dir pattern = (Ok res, evs) ->
  let dicom_files := glob_glob os (os_path_join os input_path pattern) in
  (List.length res <= List.length dicom_files)%nat /\
  Forall (fun p =>
            p <> "" /\
            exists (f : string) (output_path : option string),
              In f dicom_files /\
              fst (convert_dicom_to_png os f output_path true) = Some p /\
              (forall d, output_dir = Some d -> d <> "" ->
                 p = os_path_join os d
                       (fst (os_path_splitext os (os_path_basename os f)) ++ ".png")))
         res.
Proof.
  exact (batch_loop_results os input_path output_dir pattern res evs).
Qed.

Lemma batch_results_witness :
  (List.length ["out/a.png"; "out/c.png"] <= 3)%nat /\
  Forall (fun p =>
            p <> "" /\
            exists (f : string) (output_path : option string),
              In f ["scans/a.dcm"; "scans/b.dcm"; "scans/c.dcm"] /\
              fst (convert_dicom_to_png example_platform f output_path true) = Some p /\
              (forall d, Some "out" = Some d -> d <> "" ->
                 p = os_path_join example_platform d
                       (fst (os_path_splitext example_platform
                               (os_path_basename example_platform f)) ++ ".png")))
         ["out/a.png"; "out/c.png"].
Proof.
  apply (batch_results example_platform "scans" (Some "out") "*.dcm"
           ["out/a.png"; "out/c.png"]
           (snd (batch_convert_dicom_to_png example_platform "scans" (Some "out") "*.dcm"))).
  vm_compute. reflexivity.
Defined.

(** The batch reports what it did: after "Found n" come the lines of the
    conversions of the matched files, file after file in the order of the
    match (for each file its save and success lines, or its error line),
    then a summary with the number of returned paths and the number of
    matched files. *)
Theorem batch_summary (os : platform) (input_path : string)
    (output_dir : option string) (pattern : string)
    (res : list string) (evs : list event) :
  batch_convert_dicom_to_png os input_path output_dir pattern = (Ok res, evs) ->
  glob_glob os (os_path_join os input_path pattern) <> [] ->
  let dicom_files := glob_glob os (os_path_join os input_path pattern) in
  let n := List.length dicom_files in
  evs = (Found n
           :: flat_map
                (fun f => snd (convert_dicom_to_png os f
                                 (batch_output_path os output_dir f) true))
                dicom_files
           ++ [Summary (List.length res) n])%list /\
  (List.length res <= n)%nat.
Proof.
  intros H Hne. cbv zeta. unfold batch_convert_dicom_to_png in H.
  remember (glob_glob os (os_path_join os input_path pattern)) as files eqn:Ef.
  destruct files as [|f rest]; [congruence|].
  destruct (if truthy output_dir then _ else Ok tt) as [[]|e]; [|discriminate].
  destruct (convert_each_results os output_dir (f :: rest) []) as (new & E & L & _).
  rewrite convert_each_flat_map in H, E. cbn [fst] in E.
  injection H as <- <-. split; [reflexivity|].
  cbn [app flat_map] in E. rewrite E. exact L.
Qed.

Lemma batch_summary_witness :
  snd (batch_convert_dicom_to_png example_platform "scans" None "*.dcm")
  = (Found 3
       :: flat_map
            (fun f => snd (convert_dicom_to_png example_platform f
                             (batch_output_path example_platform None f) true))
            ["scans/a.dcm"; "scans/b.dcm"; "scans/c.dcm"]
       ++ [Summary 2 3])%list /\
  (2 <= 3)%nat.
Proof.
  apply (batch_summary example_platform "scans" None "*.dcm"
           ["scans/a.png"; "scans/c.png"]).
  - vm_compute. reflexivity.
  - discriminate.
Defined.

(** Before the loop: without a match the batch returns the empty list and
    does not create the output directory (a failing [makedirs] goes
    unnoticed); with matches, a failure of [makedirs] is not caught: it
    leaves the batch before any file is converted. *)
Theorem batch_before_loop (os : platform) (input_path : string)
    (output_dir : option string) (pattern : string) :
  let search_pattern := os_path_join os input_path pattern in
  (glob_glob os search_pattern = [] ->
   batch_convert_dicom_to_png os input_path output_dir pattern
   = (Ok [], [NoFilesFound search_pattern])) /\
  (forall d e, glob_glob os search_pattern <> [] ->
   output_dir = Some d -> d <> "" -> os_makedirs os d = Raise e ->
   batch_convert_dicom_to_png os input_path output_dir pattern
   = (Raise e, [Found (List.length (glob_glob os search_pattern))])).
Proof.
  intros sp. unfold batch_convert_dicom_to_png. fold sp. split.
  - intros ->. reflexivity.
  - intros d e Hne -> Hd Hm. destruct (glob_glob os sp) as [|f rest]; [congruence|].
    cbn [truthy]. apply String.eqb_neq in Hd. now rewrite Hd, Hm.
Qed.

Lemma batch_before_loop_witness :
  batch_convert_dicom_to_png
    (mk_platform (dcmread example_platform)
       (Image_fromarray example_platform) (Image_save example_platform)
       (os_path_basename example_platform) (os_path_dirname example_platform)
       (os_path_splitext example_platform) (os_path_join example_platform)
       (glob_glob example_platform) (fun _ => Raise OSError))
    "scans" (Some "/readonly") "*.dcm"
  = (Raise OSError, [Found 3]).
Proof.
  destruct (batch_before_loop
              (mk_platform (dcmread example_platform)
                 (Image_fromarray example_platform) (Image_save example_platform)
                 (os_path_basename example_platform) (os_path_dirname example_platform)
                 (os_path_splitext example_platform) (os_path_join example_platform)
                 (glob_glob example_platform) (fun _ => Raise OSError))
              "scans" (Some "/readonly") "*.dcm") as [_ H].
  apply (H "/readonly" OSError).
  - discriminate.
  - reflexivity.
  - discriminate.
  - reflexivity.
Defined.

Lemma convert_each_empty_dir (os : platform) (dicom_files converted_files : list string) :
  convert_each os (Some "") dicom_files converted_files
  = convert_each os None dicom_files converted_files.
Proof.
  revert converted_files. induction dicom_files as [|f rest IH]; intros acc;
    [reflexivity|].
  cbn [convert_each truthy String.eqb negb].
  destruct (convert_dicom_to_png os f None true) as [r out].
  now rewrite IH.
Qed.

(** An empty output directory name counts as none: the files are written
    next to their sources and no directory is created. *)
Theorem batch_empty_output_dir (os : platform) (input_path pattern : string) :
  batch_convert_dicom_to_png os input_path (Some "") pattern
  = batch_convert_dicom_to_png os input_path None pattern.
Proof.
  unfold batch_convert_dicom_to_png. cbn [truthy String.eqb negb].
  now rewrite convert_each_empty_dir.
Qed.

(** How [main] can end once the arguments are parsed.  Given an existing file it returns normally, even
    when the conversion fails; given neither a file nor a directory it
    prints the complaint and exits with status 1, converting nothing; status
    1 is the only exit; and the only exception that escapes is a failure to
    create the output directory of a batch. *)
Theorem main_exit_status (os : platform) (os_path_isfile os_path_isdir : string -> bool)
    (args : arguments) :
  (os_path_isfile (input args) = true ->
   main os os_path_isfile os_path_isdir args
   = (Returned,
      map Conversion
        (snd (convert_dicom_to_png os (input args) (output args)
                (negb (no_windowing args)))))) /\
  (os_path_isfile (input args) = false -> os_path_isdir (input args) = false ->
   main os os_path_isfile os_path_isdir args
   = (SystemExit 1, [InvalidInput (input args)])) /\
  (forall code out,
     main os os_path_isfile os_path_isdir args = (SystemExit code, out) ->
     code = 1%Z /\ out = [InvalidInput (input args)] /\
     os_path_isfile (input args) = false /\ os_path_isdir (input args) = false) /\
  (forall e out,
     main os os_path_isfile os_path_isdir args = (Uncaught e, out) ->
     os_path_isfile (input args) = false /\ os_path_isdir (input args) = true /\
     exists d, output_dir args = Some d /\ d <> "" /\ os_makedirs os d = Raise e).
Proof.
  unfold main. split; [|split; [|split]].
  - intros ->. now destruct (convert_dicom_to_png _ _ _ _).
  - intros -> ->. reflexivity.
  - intros code out H. destruct (os_path_isfile (input args)).
    { destruct (convert_dicom_to_png _ _ _ _). discriminate. }
    destruct (os_path_isdir (input args)).
    { destruct (batch_convert_dicom_to_png _ _ _ _) as [[r|e] o]; discriminate. }
    injection H as <- <-. auto.
  - intros e out H. destruct (os_path_isfile (input args)).
    { destruct (convert_dicom_to_png _ _ _ _). discriminate. }
    destruct (os_path_isdir (input args)); [|discriminate].
    split; [reflexivity|]. split; [reflexivity|].
    unfold batch_convert_dicom_to_png in H.
    destruct (glob_glob os _) as [|f rest]; [discriminate|].
    destruct (output_dir args) as [d|]; cbn [truthy] in H.
    + destruct (String.eqb_spec d "") as [Ed|Nd]; cbn [negb] in H.
      * destruct (convert_each _ _ _ _). discriminate.
      * destruct (os_makedirs os d) as [[]|e'] eqn:Em.
        -- destruct (convert_each _ _ _ _). discriminate.
        -- injection H as <- _. exists d. auto.
    + destruct (convert_each _ _ _ _). discriminate.
Qed.

Lemma main_exit_status_witness :
  main example_platform (fun _ => false) (fun _ => false)
    (mk_arguments "nowhere" None None "*.dcm" false)
  = (SystemExit 1, [InvalidInput "nowhere"]).
Proof.
  destruct (main_exit_status example_platform (fun _ => false) (fun _ => false)
              (mk_arguments "nowhere" None None "*.dcm" false)) as (_ & H & _).
  apply H; reflexivity.
Defined.

Lemma batch_paths_from_windowed_conversions (os : platform) (input_path : string)
    (output_dir : option string) (pattern : string)
    (res : list string) (evs : list event) :
  batch_convert_dicom_to_png os input_path output_dir pattern = (Ok res, evs) ->
  Forall (fun p =>
            exists (f : string) (dicom : dataset) (a : ndarray Z)
                   (wc ww : option Q) (n : ndarray Z) (im : image),
              In f (glob_glob os (os_path_join os input_path pattern)) /\
              convert_dicom_to_png os f (batch_output_path os output_dir f) true
              = (Some p,
                 [Saved im p;
                  Converted (os_path_basename os f) (os_path_basename os p)]) /\
              dcmread os f = Ok dicom /\
              normalizer_call dicom true = Ok (a, wc, ww) /\
              normalize_pixel_array (IntPixels a) wc ww = Ok n /\
              Image_fromarray os n
                (if Nat.eqb (List.length (shape n)) 3 then None else Some "L")
              = Ok im /\
              Image_save os im p = Ok tt)
         res.
Proof.
  intros H. unfold batch_convert_dicom_to_png in H.
  remember (glob_glob os (os_path_join os input_path pattern)) as files eqn:Ef.
  destruct files as [|f0 rest].
  { injection H as <- _. constructor. }
  destruct (if truthy output_dir then _ else Ok tt) as [[]|e]; [|discriminate].
  rewrite convert_each_flat_map in H.
  match type of H with
  | (Ok (_ ++ ?l)%list, _) = _ =>
      assert (R : res = l) by (injection H as <- _; reflexivity)
  end.
  rewrite R. clear R H.
  apply Forall_forall. intros p Hp. apply in_flat_map in Hp.
  destruct Hp as (f & Hf & Hp). exists f.
  unfold convert_dicom_to_png in *.
  destruct (convert_body os f (batch_output_path os output_dir f) true)
    as [[p' evs']|e] eqn:E; cbn [fst] in Hp; [|destruct Hp].
  destruct (String.eqb p' ""); [destruct Hp|].
  destruct Hp as [<-|[]].
  destruct (convert_body_outcome _ _ _ _ _ _ E)
    as (dicom & a & wc & ww & n & im & E1 & E2 & E3 & E4 & E5 & _ & E7).
  exists dicom, a, wc, ww, n, im. rewrite E7. repeat split; assumption.
Qed.

(** For a directory the flag [--no-windowing] is not looked at: [main] ends
    the same way with the flag and without it, and every path p the batch
    returns is the path at which the conversion of a matched file saved the
    image normalised with the window parameters extracted with windowing
    on. *)
Theorem batch_mode_ignores_no_windowing
    (os : platform) (os_path_isfile os_path_isdir : string -> bool)
    (args : arguments) (out : list main_event) :
  os_path_isfile (input args) = false ->
  os_path_isdir (input args) = true ->
  main os os_path_isfile os_path_isdir args = (Returned, out) ->
  main os os_path_isfile os_path_isdir
    (mk_arguments (input args) (output args) (output_dir args) (pattern args)
       (negb (no_windowing args)))
  = (Returned, out) /\
  exists (res : list string) (evs : list event),
    batch_convert_dicom_to_png os (input args) (output_dir args) (pattern args)
    = (Ok res, evs) /\
    out = map Conversion evs /\
    Forall (fun p =>
              exists (f : string) (dicom : dataset) (a : ndarray Z)
                     (wc ww : option Q) (n : ndarray Z) (im : image),
                In f (glob_glob os (os_path_join os (input args) (pattern args))) /\
                convert_dicom_to_png os f
                  (batch_output_path os (output_dir args) f) true
                = (Some p,
                   [Saved im p;
                    Converted (os_path_basename os f) (os_path_basename os p)]) /\
                dcmread os f = Ok dicom /\
                normalizer_call dicom true = Ok (a, wc, ww) /\
                normalize_pixel_array (IntPixels a) wc ww = Ok n /\
                Image_fromarray os n
                  (if Nat.eqb (List.length (shape n)) 3 then None else Some "L")
                = Ok im /\
                Image_save os im p = Ok tt)
           res.
Proof.
  intros Hf Hd H. split.
  - rewrite <- H. unfold main. cbn [input output output_dir pattern no_windowing].
    now rewrite Hf, Hd.
  - unfold main in H. rewrite Hf, Hd in H.
    destruct (batch_convert_dicom_to_png os (input args) (output_dir args) (pattern args))
      as [[res|e] evs] eqn:Eb; [|discriminate].
    injection H as <-. exists res, evs. split; [reflexivity|]. split; [reflexivity|].
    exact (batch_paths_from_windowed_conversions _ _ _ _ _ _ Eb).
Qed.

Lemma batch_mode_ignores_no_windowing_witness :
  main example_platform (fun _ => false) (fun _ => true)
    (mk_arguments "scans" None None "*.dcm" false)
  = (Returned,
     snd (main example_platform (fun _ => false) (fun _ => true)
            (mk_arguments "scans" None None "*.dcm" true))) /\
  exists (res : list string) (evs : list event),
    batch_convert_dicom_to_png example_platform "scans" None "*.dcm" = (Ok res, evs) /\
    snd (main example_platform (fun _ => false) (fun _ => true)
           (mk_arguments "scans" None None "*.dcm" true))
    = map Conversion evs /\
    Forall (fun p =>
              exists (f : string) (dicom : dataset) (a : ndarray Z)
                     (wc ww : option Q) (n : ndarray Z) (im : image),
                In f (glob_glob example_platform
                        (os_path_join example_platform "scans" "*.dcm")) /\
                convert_dicom_to_png example_platform f
                  (batch_output_path example_platform None f) true
                = (Some p,
                   [Saved im p;
                    Converted (os_path_basename example_platform f)
                      (os_path_basename example_platform p)]) /\
                dcmread example_platform f = Ok dicom /\
                normalizer_call dicom true = Ok (a, wc, ww) /\
                normalize_pixel_array (IntPixels a) wc ww = Ok n /\
                Image_fromarray example_platform n
                  (if Nat.eqb (List.length (shape n)) 3 then None else Some "L")
                = Ok im /\
                Image_save example_platform im p = Ok tt)
           res.
Proof.
  apply (batch_mode_ignores_no_windowing example_platform (fun _ => false) (fun _ => true)
           (mk_arguments "scans" None None "*.dcm" true)).
  - reflexivity.
  - reflexivity.
  - vm_compute. reflexivity.
Defined.

Local Close Scope string_scope.
